(** * Doc-Repo-Service: the file registry of [server/server.js]

    A shallow embedding of the Express server of the repository: the
    in-memory registry [fileMap], its JSON snapshot [fileMap.json], the
    [uploads] directory and the four request handlers, followed by the
    properties of the registry that the specification states, and by
    further properties of the server and of the computations the React
    client makes on the records ([api/fileService.ts], [App.tsx],
    [components/FileList.tsx], [components/FileUpload.tsx]).

    Modelling conventions.
    - JavaScript strings are Rocq strings, read as the UTF-8 text of the
      JavaScript value.
    - [fileMap] is a plain JavaScript object used as a dictionary.  Its own
      properties are a [gmap string FileInfo]; a property read also sees the
      members the object inherits from [Object.prototype]
      (see [get_property]).  The enumeration order of the object is not
      modelled: [Object_values] lists the records in the order of the map.
    - Statements of the handlers run in a state-and-exception monad [Js]
      over the state [Server]; [try_catch] is JavaScript's [try]/[catch].
    - The results of [uuidv4()] and of [new Date().toISOString()] are read
      from two oracles, indexed by the number of calls made so far.
    - [JSON.stringify] and [JSON.parse] are parameters of the development
      ([Class Platform]); [Module Codec] gives one instance of them, a
      printer and a parser of the snapshot format, and [Module CodecFacts]
      proves that the parser reads back what the printer writes.
    - File-system calls succeed, except the write of the snapshot, which
      fails when [snapshot_writable] is [false]; multer stores every file
      it keeps.
    - The libraries the server calls are modelled after their code where
      the handlers depend on it: Node's [path] ([Module Path]), the check
      [res.setHeader] makes on a header value, and what busboy and multer
      make of the headers of a file part ([Module Busboy]). *)

From Stdlib Require Import String Ascii List NArith ZArith Lia Bool.
From Stdlib Require Import DecimalString DecimalN.
From stdpp Require Import gmap strings list fin_maps.
From Stdlib Require Import Sorted.

Local Open Scope string_scope.

(** ** Data model *)

(** [FileInfo], the interface of [src/types/file.ts]. *)
Record FileInfo := mkFileInfo {
  uid : string;
  originalFilename : string;
  storedFilename : string;
  size : N;
  mimeType : string;
  uploadTime : string
}.

#[global] Instance FileInfo_eq_dec : EqDecision FileInfo.
Proof. solve_decision. Defined.

(** The fields of multer's file object ([req.files[i]]) the handler reads. *)
Record MulterFile := mkMulterFile {
  originalname : string;
  filename : string;
  file_size : N;
  mimetype : string
}.

(** One file part of a multipart request, as it is sent: the bytes of the
    [filename] parameter of its [Content-Disposition] header, the bytes of
    its [Content-Type] header and its content.  [Busboy.event_filename] and
    [Busboy.event_mimeType] are what multer is handed for them. *)
Record Part := mkPart {
  part_originalname : string;
  part_mimetype : string;
  part_content : string
}.

(** The state of the process and of the part of the file system it uses.
    - [fileMap]: the own properties of the module-level object [fileMap];
    - [uploads]: the files of the directory [uploadsDir], by file name;
    - [snapshot]: the content of [fileMapPath], [None] when the file is absent;
    - [snapshot_writable]: whether [fs.writeFileSync(fileMapPath, _)]
      succeeds ([false]: the call throws, for instance on a read-only file
      or a full disk);
    - [console]: the tags of the [console.error] calls, oldest first;
    - [uuid_calls], [clock_reads]: the positions in the two oracles. *)
Record Server := mkServer {
  fileMap : gmap string FileInfo;
  uploads : gmap string string;
  snapshot : option string;
  snapshot_writable : bool;
  console : list string;
  uuid_calls : nat;
  clock_reads : nat
}.

Definition set_fileMap (m : gmap string FileInfo) (s : Server) : Server :=
  mkServer m (uploads s) (snapshot s) (snapshot_writable s) (console s)
           (uuid_calls s) (clock_reads s).

Definition set_uploads (u : gmap string string) (s : Server) : Server :=
  mkServer (fileMap s) u (snapshot s) (snapshot_writable s) (console s)
           (uuid_calls s) (clock_reads s).

Definition set_snapshot (d : option string) (s : Server) : Server :=
  mkServer (fileMap s) (uploads s) d (snapshot_writable s) (console s)
           (uuid_calls s) (clock_reads s).

Definition set_console (c : list string) (s : Server) : Server :=
  mkServer (fileMap s) (uploads s) (snapshot s) (snapshot_writable s) c
           (uuid_calls s) (clock_reads s).

Definition set_uuid_calls (n : nat) (s : Server) : Server :=
  mkServer (fileMap s) (uploads s) (snapshot s) (snapshot_writable s)
           (console s) n (clock_reads s).

Definition set_clock_reads (n : nat) (s : Server) : Server :=
  mkServer (fileMap s) (uploads s) (snapshot s) (snapshot_writable s)
           (console s) (uuid_calls s) n.

(** ** HTTP responses *)

Inductive HeaderValue :=
  | HString (v : string)
  | HNumber (n : N).

(** The bodies the handlers send: [{error}], [{message, files}], a
    [FileInfo[]], [{message}], or the bytes piped from a read stream. *)
Inductive Body :=
  | ErrorBody (error : string)
  | UploadBody (message : string) (files : list FileInfo)
  | FilesBody (files : list FileInfo)
  | MessageBody (message : string)
  | StreamBody (bytes : string).

(** What a handler makes of [res]: the status, the headers it sets with
    [res.setHeader], in order, and the body. *)
Record Response := mkResponse {
  status : nat;
  headers : list (string * HeaderValue);
  body : Body
}.

(** [res.status(code).json(b)] on a response without other headers. *)
Definition json (code : nat) (b : Body) : Response := mkResponse code [] b.

(** ** Statements: state and exceptions *)

Inductive completion (A : Type) :=
  | Normal (a : A)
  | Throw (e : string).
Arguments Normal {A} a.
Arguments Throw {A} e.

Definition Js (A : Type) : Type := Server -> completion A * Server.

Definition ret {A} (a : A) : Js A := fun s => (Normal a, s).

Definition throw {A} (e : string) : Js A := fun s => (Throw e, s).

Definition bind {A B} (m : Js A) (k : A -> Js B) : Js B :=
  fun s =>
    match m s with
    | (Normal a, s') => k a s'
    | (Throw e, s') => (Throw e, s')
    end.

(** [try { m } catch (e) { h e }]: the effects of [m] up to the throw stay. *)
Definition try_catch {A} (m : Js A) (h : string -> Js A) : Js A :=
  fun s =>
    match m s with
    | (Normal a, s') => (Normal a, s')
    | (Throw e, s') => h e s'
    end.

Definition get {A} (f : Server -> A) : Js A := fun s => (Normal (f s), s).

Definition modify (f : Server -> Server) : Js unit := fun s => (Normal tt, f s).

Notation "x <- m ;; k" := (bind m (fun x => k))
  (at level 100, m at next level, k at level 200, right associativity).
Notation "'do' m ;; k" := (bind m (fun _ => k))
  (at level 100, m at next level, k at level 200, right associativity).

(** ** The runtime: console and file system *)

Definition console_error (tag : string) : Js unit :=
  modify (fun s => set_console (console s ++ [tag]) s).

(** [fs.existsSync(fileMapPath)]. *)
Definition existsSync_fileMapPath : Js bool :=
  get (fun s => bool_decide (is_Some (snapshot s))).

(** [fs.readFileSync(fileMapPath, 'utf8')]. *)
Definition readFileSync_fileMapPath : Js string :=
  fun s =>
    match snapshot s with
    | Some data => (Normal data, s)
    | None => (Throw "ENOENT", s)
    end.

(** [fs.writeFileSync(fileMapPath, data)]. *)
Definition writeFileSync_fileMapPath (data : string) : Js unit :=
  fun s =>
    if snapshot_writable s then (Normal tt, set_snapshot (Some data) s)
    else (Throw "EACCES", s).

(** [fs.existsSync(path.join(uploadsDir, name))].  The files of
    [uploadsDir] are looked up by name: [name] is a file name, as the
    names multer gives are ([uuid + ext]), not a path with segments. *)
Definition existsSync_upload (name : string) : Js bool :=
  get (fun s => bool_decide (is_Some (uploads s !! name))).

(** [fs.unlinkSync(path.join(uploadsDir, name))]. *)
Definition unlinkSync_upload (name : string) : Js unit :=
  fun s =>
    match uploads s !! name with
    | Some _ => (Normal tt, set_uploads (delete name (uploads s)) s)
    | None => (Throw "ENOENT", s)
    end.

(** [fs.createReadStream(path.join(uploadsDir, name)).pipe(res)], for a file
    that exists: the bytes the stream delivers. *)
Definition read_upload (name : string) : Js string :=
  fun s =>
    match uploads s !! name with
    | Some bytes => (Normal bytes, s)
    | None => (Throw "ENOENT", s)
    end.

(** ** Node's [path] module (POSIX variant)

    [path.extname] and [path.parse(_).name] are library functions; they are
    written here as Node's [lib/path.js] computes them: one scan of the path
    from its last character backwards, which records where the last path
    segment ends ([end_]), where it starts ([startPart]), where its last dot
    stands ([startDot]) and what was seen in front of that dot
    ([preDotState]).  Indices are [Z] because the loop uses [-1] for
    "not seen". *)

Module Path.

Record scan := mkScan {
  startDot : Z;
  startPart : Z;
  end_ : Z;
  matchedSlash : bool;
  preDotState : Z
}.

Definition scan_init : scan := mkScan (-1) 0 (-1) true 0.

Definition is_slash (c : ascii) : bool := Ascii.eqb c "/".
Definition is_dot (c : ascii) : bool := Ascii.eqb c ".".

(** The part of the loop body that runs for a character that is not a
    separator, at index [i]. *)
Definition scan_char (c : ascii) (i : Z) (st : scan) : scan :=
  let st1 :=
    if (end_ st =? -1)%Z
    then mkScan (startDot st) (startPart st) (i + 1) false (preDotState st)
    else st in
  if is_dot c then
    if (startDot st1 =? -1)%Z
    then mkScan i (startPart st1) (end_ st1) (matchedSlash st1) (preDotState st1)
    else if negb (preDotState st1 =? 1)%Z
         then mkScan (startDot st1) (startPart st1) (end_ st1) (matchedSlash st1) 1
         else st1
  else if negb (startDot st1 =? -1)%Z
       then mkScan (startDot st1) (startPart st1) (end_ st1) (matchedSlash st1) (-1)
       else st1.

(** [for (i = ...; i >= start; --i)]: [cs] lists [path[i]], [path[i-1]], ...
    down to [path[start]].  A separator met after the segment has begun
    sets [startPart] and leaves the loop. *)
Fixpoint scan_back (cs : list ascii) (i : Z) (st : scan) : scan :=
  match cs with
  | [] => st
  | c :: cs' =>
      if is_slash c then
        if negb (matchedSlash st)
        then mkScan (startDot st) (i + 1) (end_ st) (matchedSlash st) (preDotState st)
        else scan_back cs' (i - 1) st
      else scan_back cs' (i - 1) (scan_char c i st)
  end.

(** [path.slice(a, b)] for [0 <= a]. *)
Definition slice (l : list ascii) (a b : Z) : list ascii :=
  take (Z.to_nat b - Z.to_nat a) (drop (Z.to_nat a) l).

(** The test both functions make after the loop: the segment has no
    extension. *)
Definition no_extension (st : scan) : bool :=
  (startDot st =? -1)%Z
  || (preDotState st =? 0)%Z
  || ((preDotState st =? 1)%Z
      && (startDot st =? end_ st - 1)%Z
      && (startDot st =? startPart st + 1)%Z).

Definition extname_chars (l : list ascii) : list ascii :=
  let st := scan_back (rev l) (Z.of_nat (length l) - 1) scan_init in
  if no_extension st || (end_ st =? -1)%Z then []
  else slice l (startDot st) (end_ st).

(** [path.extname(path)]. *)
Definition extname (path : string) : string :=
  string_of_list_ascii (extname_chars (list_ascii_of_string path)).

Definition parse_name_chars (l : list ascii) : list ascii :=
  match l with
  | [] => []
  | c0 :: _ =>
      let isAbsolute := is_slash c0 in
      let start := if isAbsolute then 1%nat else 0%nat in
      let st := scan_back (rev (drop start l)) (Z.of_nat (length l) - 1) scan_init in
      if (end_ st =? -1)%Z then []
      else
        let start' :=
          if (startPart st =? 0)%Z && isAbsolute then 1%Z else startPart st in
        if no_extension st then slice l start' (end_ st)
        else slice l start' (startDot st)
  end.

(** [path.parse(path).name]. *)
Definition parse_name (path : string) : string :=
  string_of_list_ascii (parse_name_chars (list_ascii_of_string path)).

End Path.

(** ** [encodeURIComponent]

    Every byte of the UTF-8 text that is not an unreserved character
    ([A-Z a-z 0-9 - _ . ! ~ * ' ( )]) becomes [%XX], in upper-case
    hexadecimal. *)

Definition uri_unreserved (c : ascii) : bool :=
  let n := nat_of_ascii c in
  ((65 <=? n)%nat && (n <=? 90)%nat) || ((97 <=? n)%nat && (n <=? 122)%nat)
  || ((48 <=? n)%nat && (n <=? 57)%nat)
  || bool_decide (c ∈ list_ascii_of_string "-_.!~*'()").

Definition hex_upper (n : nat) : ascii :=
  nth n (list_ascii_of_string "0123456789ABCDEF") "0"%char.

Fixpoint encodeURIComponent (s : string) : string :=
  match s with
  | EmptyString => EmptyString
  | String c rest =>
      if uri_unreserved c then String c (encodeURIComponent rest)
      else String "%" (String (hex_upper (nat_of_ascii c / 16))
             (String (hex_upper (nat_of_ascii c mod 16)) (encodeURIComponent rest)))
  end.

(** The double quote, as a one-character string. *)
Definition dquote : string := String (ascii_of_nat 34) EmptyString.

(** ** Header values

    [res.setHeader(name, value)] of Node's [http] module throws
    [ERR_INVALID_CHAR] when [checkInvalidHeaderChar(value)] holds: when the
    value has a character outside tab, U+0020 to U+007E and U+0080 to
    U+00FF.  On the UTF-8 text of the value, the characters from U+0080 to
    U+00FF are the two-byte sequences that start with 0xC2 or 0xC3. *)

Fixpoint checkInvalidHeaderChar (val : string) : bool :=
  match val with
  | EmptyString => false
  | String c rest =>
      let n := nat_of_ascii c in
      if ((n =? 9) || ((32 <=? n) && (n <=? 126)))%nat
      then checkInvalidHeaderChar rest
      else if ((n =? 194) || (n =? 195))%nat then
        match rest with
        | String c' rest' =>
            negb ((128 <=? nat_of_ascii c') && (nat_of_ascii c' <=? 191))%nat
            || checkInvalidHeaderChar rest'
        | EmptyString => true
        end
      else true
  end.

(** ** busboy and multer: the headers of a file part

    multer hands the body of a multipart request to busboy, which reads
    the headers of each part as latin1 text and emits a [file] event with
    the [filename] (the base name of the [filename] parameter) and the
    [mimeType] (the type and subtype of the [Content-Type] header, in
    lower case, or [text/plain]); multer drops a file whose [filename] is
    empty.  The definitions follow [lib/utils.js] and
    [lib/types/multipart.js] of busboy 1.x and [lib/make-middleware.js] of
    multer. *)

Module Busboy.

(** [data.latin1Slice()]: the string whose characters are the bytes; as
    UTF-8 text, a byte from 0x80 on becomes a two-byte sequence. *)
Fixpoint latin1Slice (data : string) : string :=
  match data with
  | EmptyString => EmptyString
  | String c rest =>
      let n := nat_of_ascii c in
      if (n <? 128)%nat then String c (latin1Slice rest)
      else String (ascii_of_nat (192 + n / 64))
             (String (ascii_of_nat (128 + n mod 64)) (latin1Slice rest))
  end.

Definition is_separator (c : ascii) : bool :=
  Ascii.eqb c "/" || Ascii.eqb c (ascii_of_nat 92).

(** The text after the last [/] or backslash of [path], [None] when it has
    neither. *)
Fixpoint after_last_separator (path : string) : option string :=
  match path with
  | EmptyString => None
  | String c rest =>
      match after_last_separator rest with
      | Some tail => Some tail
      | None => if is_separator c then Some rest else None
      end
  end.

(** [basename(path)]: the last segment, and the empty string in place of
    [.] and [..]. *)
Definition basename (path : string) : string :=
  let segment :=
    match after_last_separator path with
    | Some tail => tail
    | None => path
    end in
  if bool_decide (segment = ".." ∨ segment = ".") then EmptyString else segment.

(** The table [TOKEN]: the characters of an HTTP token. *)
Definition TOKEN (c : ascii) : bool :=
  let n := nat_of_ascii c in
  ((48 <=? n)%nat && (n <=? 57)%nat) || ((65 <=? n)%nat && (n <=? 90)%nat)
  || ((97 <=? n)%nat && (n <=? 122)%nat)
  || bool_decide (c ∈ list_ascii_of_string "!#$%&'*+-.^_`|~").

(** The table [QDTEXT]: the characters of a quoted string, the quote and
    the backslash apart. *)
Definition QDTEXT (c : ascii) : bool :=
  let n := nat_of_ascii c in
  ((n =? 9) || (n =? 32) || (n =? 33) || ((35 <=? n) && (n <=? 91))
   || ((93 <=? n) && (n <=? 126)) || (128 <=? n))%nat.

(** The longest prefix of token characters, and what follows it. *)
Fixpoint token_prefix (str : string) : string * string :=
  match str with
  | EmptyString => (EmptyString, EmptyString)
  | String c rest =>
      if TOKEN c then
        let '(token, rest') := token_prefix rest in (String c token, rest')
      else (EmptyString, str)
  end.

(** The positions of the loop of [parseContentTypeParams]: before the
    [;] of a parameter, after it, in the name, at the start of the value,
    in an unquoted value, in a quoted value (after a backslash or not). *)
Inductive params_state :=
  | BeforeSemicolon
  | AfterSemicolon
  | InName
  | ValueStart
  | InToken
  | InQuoted (escaping : bool).

Definition is_blank (c : ascii) : bool :=
  Ascii.eqb c " " || Ascii.eqb c (ascii_of_nat 9).

Definition params_name (c : ascii) : option params_state :=
  if TOKEN c then Some InName
  else if Ascii.eqb c "=" then Some ValueStart
  else None.

Definition params_separator (c : ascii) : option params_state :=
  if is_blank c then Some BeforeSemicolon
  else if Ascii.eqb c ";" then Some AfterSemicolon
  else None.

(** One character of the loop, [None] where the function returns
    [undefined]. *)
Definition params_char (st : params_state) (c : ascii) : option params_state :=
  match st with
  | BeforeSemicolon => params_separator c
  | AfterSemicolon => if is_blank c then Some AfterSemicolon else params_name c
  | InName => params_name c
  | ValueStart =>
      if Ascii.eqb c (ascii_of_nat 34) then Some (InQuoted false)
      else if TOKEN c then Some InToken
      else None
  | InToken => if TOKEN c then Some InToken else params_separator c
  | InQuoted escaping =>
      if Ascii.eqb c (ascii_of_nat 92) then Some (InQuoted (negb escaping))
      else if Ascii.eqb c (ascii_of_nat 34) then
        Some (if escaping then InQuoted false else BeforeSemicolon)
      else if QDTEXT c then Some (InQuoted false)
      else None
  end.

(** Whether [parseContentTypeParams] returns the parameters: the text is
    read to its end, and ends after a value or in the blanks after one. *)
Fixpoint parseContentTypeParams (str : string) (st : params_state) : bool :=
  match str with
  | EmptyString =>
      match st with
      | BeforeSemicolon | InToken => true
      | _ => false
      end
  | String c rest =>
      match params_char st c with
      | Some st' => parseContentTypeParams rest st'
      | None => false
      end
  end.

Definition toLowerCase_char (c : ascii) : ascii :=
  let n := nat_of_ascii c in
  if ((65 <=? n) && (n <=? 90))%nat then ascii_of_nat (n + 32) else c.

(** [toLowerCase()], on a token. *)
Fixpoint toLowerCase (token : string) : string :=
  match token with
  | EmptyString => EmptyString
  | String c rest => String (toLowerCase_char c) (toLowerCase rest)
  end.

(** [parseContentType(str)]: the type and the subtype, [None] for
    [undefined]. *)
Definition parseContentType (str : string) : option (string * string) :=
  let '(type, rest) := token_prefix str in
  match type, rest with
  | String _ _, String c rest' =>
      if Ascii.eqb c "/" then
        let '(subtype, params) := token_prefix rest' in
        match subtype with
        | String _ _ =>
            if parseContentTypeParams params BeforeSemicolon
            then Some (toLowerCase type, toLowerCase subtype)
            else None
        | EmptyString => None
        end
      else None
  | _, _ => None
  end.

(** [partType]: [text/plain] unless the [Content-Type] of the part
    parses. *)
Definition event_mimeType (content_type : string) : string :=
  match parseContentType (latin1Slice content_type) with
  | Some (type, subtype) => type +:+ "/" +:+ subtype
  | None => "text/plain"
  end.

(** The [filename] of the [file] event. *)
Definition event_filename (filename_parameter : string) : string :=
  basename (latin1Slice filename_parameter).

End Busboy.

(** ** Identifiers

    The shape of a version-4 UUID as the [uuid] package prints it:
    8-4-4-4-12 lower-case hexadecimal digits. *)

Definition is_hex_lower (c : ascii) : bool :=
  let n := nat_of_ascii c in
  ((48 <=? n)%nat && (n <=? 57)%nat) || ((97 <=? n)%nat && (n <=? 102)%nat).

Definition hyphen_position (pos : nat) : bool :=
  ((pos =? 8) || (pos =? 13) || (pos =? 18) || (pos =? 23))%nat.

Fixpoint uuid_chars (pos : nat) (cs : list ascii) : bool :=
  match cs with
  | [] => (pos =? 36)%nat
  | c :: cs' =>
      (if hyphen_position pos then Ascii.eqb c "-" else is_hex_lower c)
      && uuid_chars (S pos) cs'
  end.

Definition is_uuid (s : string) : bool := uuid_chars 0 (list_ascii_of_string s).

(** ** Property reads on [fileMap]

    [fileMap] is created by [{}] or by [JSON.parse], so its prototype is
    [Object.prototype].  A read [fileMap[uid]] yields the own property when
    there is one, else the member of [Object.prototype] of that name when
    there is one (a function, or the prototype object itself for
    [__proto__]: all truthy, none with a [storedFilename]), else
    [undefined]. *)

Definition Object_prototype : list string :=
  [ "constructor"; "__defineGetter__"; "__defineSetter__"; "hasOwnProperty";
    "__lookupGetter__"; "__lookupSetter__"; "isPrototypeOf";
    "propertyIsEnumerable"; "toString"; "valueOf"; "__proto__";
    "toLocaleString" ].

Inductive JsValue :=
  | VRecord (info : FileInfo)
  | VInherited (name : string)
  | VUndefined.

Definition get_property (m : gmap string FileInfo) (key : string) : JsValue :=
  match m !! key with
  | Some info => VRecord info
  | None =>
      if bool_decide (key ∈ Object_prototype) then VInherited key
      else VUndefined
  end.

(** [Object.values(fileMap)]: the values of the own properties. *)
Definition Object_values (m : gmap string FileInfo) : list FileInfo :=
  (map_to_list m).*2.

(** ** The platform

    What the server takes from the JavaScript runtime and from the [uuid]
    package and cannot be computed from its own state:
    - [JSON_stringify m] is [JSON.stringify(fileMap, null, 2)];
    - [JSON_parse data] is [JSON.parse(data)], [None] when it throws a
      [SyntaxError].  The embedding is typed by [FileInfo]: a text that
      parses to a value which is not an object of file records is outside
      it;
    - [uuidv4 n] is the result of the [n]-th call of [uuidv4()];
    - [toISOString n] is the result of the [n]-th evaluation of
      [new Date().toISOString()]. *)
Class Platform := {
  JSON_stringify : gmap string FileInfo -> string;
  JSON_parse : string -> option (gmap string FileInfo);
  uuidv4 : nat -> string;
  toISOString : nat -> string
}.

(** The requests of the four routes, as they reach the handlers.
    [Upload (Some parts)] is a multipart request that multer reads to its
    end, with the file parts of the field [files]; [Upload None] is a
    request that is not multipart, for which multer leaves [req.files]
    undefined.  The [uid] of a download or a delete is [req.params.uid]:
    the route matches a path whose last segment is not empty, so that
    express never calls the handler with the empty string (see [routed]).
    A request that express or multer answers itself, with an error page,
    is none of these. *)
Inductive Request :=
  | Upload (parts : option (list Part))
  | ListFiles
  | Download (uid : string)
  | Delete (uid : string).

Section Handlers.
Context `{Platform}.

Definition uuidv4_call : Js string :=
  fun s => (Normal (uuidv4 (uuid_calls s)), set_uuid_calls (S (uuid_calls s)) s).

Definition Date_toISOString : Js string :=
  fun s => (Normal (toISOString (clock_reads s)), set_clock_reads (S (clock_reads s)) s).

Definition JSON_parse_call (data : string) : Js (gmap string FileInfo) :=
  match JSON_parse data with
  | Some m => ret m
  | None => throw "SyntaxError"
  end.

(** Lines 20-33: the module-level load of [fileMap].  A [Throw] completion
    is an exception that nothing catches at module level: the process
    exits before [app.listen]. *)
Definition load_fileMap : Js unit :=
  do modify (set_fileMap ∅) ;;
  present <- existsSync_fileMapPath ;;
  if present : bool then
    try_catch
      (fileData <- readFileSync_fileMapPath ;;
       m <- JSON_parse_call fileData ;;
       modify (set_fileMap m))
      (fun _ =>
         do console_error "Error loading fileMap:" ;;
         do modify (set_fileMap ∅) ;;
         writeFileSync_fileMapPath (JSON_stringify ∅))
  else ret tt.

(** The process at its start, on a given file system. *)
Definition boot (files : gmap string string) (snap : option string)
    (writable : bool) : Server :=
  mkServer ∅ files snap writable [] 0 0.

Definition startup (files : gmap string string) (snap : option string)
    (writable : bool) : completion unit * Server :=
  load_fileMap (boot files snap writable).

(** Lines 36-42: [saveFileMap]. *)
Definition saveFileMap : Js unit :=
  try_catch
    (m <- get fileMap ;;
     writeFileSync_fileMapPath (JSON_stringify m))
    (fun _ => console_error "Error saving fileMap:").

(** Lines 49-55: the [filename] callback of the disk storage. *)
Definition storage_filename (file_originalname : string) : Js string :=
  let fileExt := Path.extname file_originalname in
  uniqueId <- uuidv4_call ;;
  let storedFilename := uniqueId +:+ fileExt in
  ret storedFilename.

(** [upload.array('files')] with the disk storage of lines 45-58, on the
    parts of a multipart request.  For each part busboy emits a [file]
    event; multer drops the file when its [filename] is empty
    ([if (!filename) return fileStream.resume()]), and otherwise calls the
    [filename] callback with [file.originalname] the event's [filename],
    writes the content to [uploadsDir] under the name the callback
    returns, and adds the file to [req.files]. *)
Fixpoint upload_array (parts : list Part) : Js (list MulterFile) :=
  match parts with
  | [] => ret []
  | p :: rest =>
      let filename := Busboy.event_filename (part_originalname p) in
      let mimeType := Busboy.event_mimeType (part_mimetype p) in
      if bool_decide (filename = EmptyString) then upload_array rest
      else
        name <- storage_filename filename ;;
        do modify (fun s => set_uploads (<[name := part_content p]> (uploads s)) s) ;;
        files <- upload_array rest ;;
        ret (mkMulterFile filename name
               (N.of_nat (String.length (part_content p))) mimeType
             :: files)
  end.

(** Lines 79-93: the body of [uploadedFiles.forEach].  The assignment
    [fileMap[uid] = fileInfo] creates or overwrites the own property [uid]
    (for every key but ["__proto__"], which no file name that starts with
    a UUID yields). *)
Fixpoint forEach_uploaded (uploadedFiles : list MulterFile)
    (fileData : list FileInfo) : Js (list FileInfo) :=
  match uploadedFiles with
  | [] => ret fileData
  | file :: rest =>
      let uid := Path.parse_name (filename file) in
      now <- Date_toISOString ;;
      let fileInfo :=
        mkFileInfo uid (originalname file) (filename file) (file_size file)
                   (mimetype file) now in
      do modify (fun s => set_fileMap (<[uid := fileInfo]> (fileMap s)) s) ;;
      forEach_uploaded rest (fileData ++ [fileInfo])
  end.

(** Lines 69-106: the handler of [POST /upload], on [req.files]. *)
Definition post_upload (req_files : option (list MulterFile)) : Js Response :=
  try_catch
    (match req_files with
     | None | Some [] => ret (json 400 (ErrorBody "No files uploaded"))
     | Some uploadedFiles =>
         fileData <- forEach_uploaded uploadedFiles [] ;;
         do saveFileMap ;;
         ret (json 200 (UploadBody "Files uploaded successfully" fileData))
     end)
    (fun _ =>
       do console_error "Upload error:" ;;
       ret (json 500 (ErrorBody "File upload failed"))).

(** Lines 109-118: the handler of [GET /files]. *)
Definition get_files : Js Response :=
  try_catch
    (files <- get (fun s => Object_values (fileMap s)) ;;
     ret (mkResponse 200 [("Content-Type", HString "application/json")]
            (FilesBody files)))
    (fun _ =>
       do console_error "Get files error:" ;;
       ret (json 500 (ErrorBody "Failed to fetch files"))).

(** [res.setHeader(name, value)], on the headers set so far. *)
Definition res_setHeader (hdrs : list (string * HeaderValue)) (name : string)
    (value : HeaderValue) : Js (list (string * HeaderValue)) :=
  match value with
  | HString text =>
      if checkInvalidHeaderChar text then throw "ERR_INVALID_CHAR"
      else ret (hdrs ++ [(name, value)])%list
  | HNumber _ => ret (hdrs ++ [(name, value)])%list
  end.

(** Lines 121-159: the handler of [GET /download/:uid].  The three cases
    of the value read at line 124: [undefined] is falsy and line 127
    answers; a member of [Object.prototype] is truthy and has no
    [storedFilename], so that [path.join(uploadsDir, undefined)] throws a
    [TypeError] at line 130; a record goes on.  [res.setHeader] throws at
    line 140 when the stored [mimeType] is no header value.  The status of
    the streamed answer is the default one, 200; an error of the stream
    itself comes after the handler has returned and is not part of the
    model. *)
Definition get_download (uid : string) : Js Response :=
  try_catch
    (fileInfo <- get (fun s => get_property (fileMap s) uid) ;;
     match fileInfo with
     | VUndefined => ret (json 404 (ErrorBody "File not found"))
     | VInherited _ => throw "TypeError"
     | VRecord info =>
         onDisk <- existsSync_upload (storedFilename info) ;;
         if negb onDisk then
           do modify (fun s => set_fileMap (delete uid (fileMap s)) s) ;;
           do saveFileMap ;;
           ret (json 404 (ErrorBody "File not found on server"))
         else
           hdrs <- res_setHeader [] "Content-Type" (HString (mimeType info)) ;;
           hdrs <- res_setHeader hdrs "Content-Disposition"
                     (HString ("attachment; filename=" +:+ dquote
                               +:+ encodeURIComponent (originalFilename info)
                               +:+ dquote)) ;;
           hdrs <- res_setHeader hdrs "Content-Length" (HNumber (size info)) ;;
           bytes <- read_upload (storedFilename info) ;;
           ret (mkResponse 200 hdrs (StreamBody bytes))
     end)
    (fun _ =>
       do console_error "Download error:" ;;
       ret (json 500 (ErrorBody "File download failed"))).

(** Lines 162-187: the handler of [DELETE /files/:uid], with the same three
    cases of the value read at line 165; [path.join] is at line 171. *)
Definition delete_file (uid : string) : Js Response :=
  try_catch
    (fileInfo <- get (fun s => get_property (fileMap s) uid) ;;
     match fileInfo with
     | VUndefined => ret (json 404 (ErrorBody "File not found"))
     | VInherited _ => throw "TypeError"
     | VRecord info =>
         onDisk <- existsSync_upload (storedFilename info) ;;
         do (if onDisk : bool then unlinkSync_upload (storedFilename info)
             else ret tt) ;;
         do modify (fun s => set_fileMap (delete uid (fileMap s)) s) ;;
         do saveFileMap ;;
         ret (json 200 (MessageBody "File deleted successfully"))
     end)
    (fun _ =>
       do console_error "Delete error:" ;;
       ret (json 500 (ErrorBody "File deletion failed"))).

(** The routes: multer runs before the upload handler. *)
Definition handle (req : Request) : Js Response :=
  match req with
  | Upload None => post_upload None
  | Upload (Some parts) =>
      files <- upload_array parts ;;
      post_upload (Some files)
  | ListFiles => get_files
  | Download uid => get_download uid
  | Delete uid => delete_file uid
  end.

End Handlers.

(** ** An instance of the platform

    A codec for the JSON texts the server writes: objects, strings and
    non-negative integers, printed as [JSON.stringify(_, null, 2)] prints
    them (two-space indentation, one member per line), and read back by a
    recursive-descent parser that accepts any white space between tokens.
    The uuid oracle counts; the clock does not move. *)

Module Codec.

Inductive json_value :=
  | JString (s : string)
  | JNumber (n : N)
  | JObject (members : json_members)
with json_members :=
  | JNil
  | JCons (key : string) (value : json_value) (rest : json_members).

(** *** Printing *)

Definition hex_lower (n : nat) : ascii :=
  nth n (list_ascii_of_string "0123456789abcdef") "0"%char.

Definition backslash : ascii := ascii_of_nat 92.
Definition quote : ascii := ascii_of_nat 34.
Definition newline : ascii := ascii_of_nat 10.

(** The escape of one character inside a string literal. *)
Definition escape_char (c : ascii) (rest : string) : string :=
  let n := nat_of_ascii c in
  if Ascii.eqb c quote then String backslash (String quote rest)
  else if Ascii.eqb c backslash then String backslash (String backslash rest)
  else if (n =? 8)%nat then String backslash (String "b" rest)
  else if (n =? 9)%nat then String backslash (String "t" rest)
  else if (n =? 10)%nat then String backslash (String "n" rest)
  else if (n =? 12)%nat then String backslash (String "f" rest)
  else if (n =? 13)%nat then String backslash (String "r" rest)
  else if (n <? 32)%nat then
    String backslash (String "u" (String "0" (String "0"
      (String (hex_lower (n / 16)) (String (hex_lower (n mod 16)) rest)))))
  else String c rest.

Fixpoint escape (s : string) (rest : string) : string :=
  match s with
  | EmptyString => rest
  | String c s' => escape_char c (escape s' rest)
  end.

Definition print_string (s : string) (rest : string) : string :=
  String quote (escape s (String quote rest)).

Definition print_number (n : N) : string :=
  NilEmpty.string_of_uint (N.to_uint n).

Fixpoint spaces (n : nat) (rest : string) : string :=
  match n with
  | O => rest
  | S n' => String " " (spaces n' rest)
  end.

(** [print_value indent v rest]: the text of [v] when it stands at nesting
    depth [indent], followed by [rest].  The members of an object stand
    one per line, two spaces deeper than the object, with a comma between
    two of them. *)
Fixpoint print_value (indent : nat) (v : json_value) (rest : string) : string :=
  match v with
  | JString s => print_string s rest
  | JNumber n => print_number n +:+ rest
  | JObject JNil => String "{" (String "}" rest)
  | JObject ms =>
      String "{" (print_members (S indent) ms
                    (String newline (spaces (2 * indent) (String "}" rest))))
  end

with print_members (indent : nat) (ms : json_members) (rest : string) : string :=
  match ms with
  | JNil => rest
  | JCons k v ms' =>
      String newline (spaces (2 * indent)
        (print_string k (String ":" (String " "
          (print_value indent v
             (match ms' with
              | JNil => rest
              | JCons _ _ _ => String "," (print_members indent ms' rest)
              end))))))
  end.

Definition encode_info (r : FileInfo) : json_value :=
  JObject
    (JCons "uid" (JString (uid r))
    (JCons "originalFilename" (JString (originalFilename r))
    (JCons "storedFilename" (JString (storedFilename r))
    (JCons "size" (JNumber (size r))
    (JCons "mimeType" (JString (mimeType r))
    (JCons "uploadTime" (JString (uploadTime r)) JNil)))))).

Fixpoint encode_entries (l : list (string * FileInfo)) : json_members :=
  match l with
  | [] => JNil
  | (k, r) :: l' => JCons k (encode_info r) (encode_entries l')
  end.

Definition encode_map (m : gmap string FileInfo) : json_value :=
  JObject (encode_entries (map_to_list m)).

Definition stringify (m : gmap string FileInfo) : string :=
  print_value 0 (encode_map m) EmptyString.

(** *** Parsing *)

Definition is_ws (c : ascii) : bool :=
  let n := nat_of_ascii c in
  ((n =? 32) || (n =? 9) || (n =? 10) || (n =? 13))%nat.

Fixpoint skip_ws (s : string) : string :=
  match s with
  | EmptyString => EmptyString
  | String c s' => if is_ws c then skip_ws s' else s
  end.

Definition hex_value (c : ascii) : option nat :=
  let n := nat_of_ascii c in
  if ((48 <=? n) && (n <=? 57))%nat then Some (n - 48)
  else if ((97 <=? n) && (n <=? 102))%nat then Some (n - 87)
  else if ((65 <=? n) && (n <=? 70))%nat then Some (n - 55)
  else None.

(** The character a two-character escape stands for. *)
Definition simple_escape (e : ascii) : option ascii :=
  if Ascii.eqb e quote then Some quote
  else if Ascii.eqb e backslash then Some backslash
  else if Ascii.eqb e "/" then Some "/"%char
  else if Ascii.eqb e "b" then Some (ascii_of_nat 8)
  else if Ascii.eqb e "t" then Some (ascii_of_nat 9)
  else if Ascii.eqb e "n" then Some (ascii_of_nat 10)
  else if Ascii.eqb e "f" then Some (ascii_of_nat 12)
  else if Ascii.eqb e "r" then Some (ascii_of_nat 13)
  else None.

(** The characters of a string literal after its opening quote, up to the
    closing quote.  Of the [\uXXXX] escapes only those of one byte
    ([\u0000] to [\u007f]) are read. *)
Fixpoint parse_chars (s : string) : option (string * string) :=
  match s with
  | EmptyString => None
  | String c s' =>
      if Ascii.eqb c quote then Some (EmptyString, s')
      else if Ascii.eqb c backslash then
        match s' with
        | String "u" (String h1 (String h2 (String h3 (String h4 s'')))) =>
            match hex_value h1, hex_value h2, hex_value h3, hex_value h4 with
            | Some 0, Some 0, Some a, Some b =>
                if (a <? 8)%nat then
                  match parse_chars s'' with
                  | Some (body, rest) => Some (String (ascii_of_nat (16 * a + b)) body, rest)
                  | None => None
                  end
                else None
            | _, _, _, _ => None
            end
        | String e s'' =>
            match simple_escape e with
            | Some b =>
                match parse_chars s'' with
                | Some (body, rest) => Some (String b body, rest)
                | None => None
                end
            | None => None
            end
        | EmptyString => None
        end
      else if (nat_of_ascii c <? 32)%nat then None
      else
        match parse_chars s' with
        | Some (body, rest) => Some (String c body, rest)
        | None => None
        end
  end.

Definition is_digit (c : ascii) : bool :=
  let n := nat_of_ascii c in ((48 <=? n) && (n <=? 57))%nat.

Definition starts_with_digit (s : string) : bool :=
  match s with
  | EmptyString => false
  | String c _ => is_digit c
  end.

(** The digits at the head of [s], as a number, after the digits read so
    far ([acc]). *)
Fixpoint parse_digits (s : string) (acc : N) : N * string :=
  match s with
  | EmptyString => (acc, EmptyString)
  | String c s' =>
      if is_digit c
      then parse_digits s' (10 * acc + N.of_nat (nat_of_ascii c - 48))%N
      else (acc, s)
  end.

(** A number: [0], or a digit from 1 to 9 followed by digits. *)
Definition parse_number (s : string) : option (N * string) :=
  match s with
  | String "0" s' => if starts_with_digit s' then None else Some (0%N, s')
  | String c _ => if is_digit c then Some (parse_digits s 0%N) else None
  | EmptyString => None
  end.

Fixpoint parse_value (fuel : nat) (s : string) : option (json_value * string) :=
  match fuel with
  | O => None
  | S fuel' =>
      match skip_ws s with
      | EmptyString => None
      | String c s' =>
          if Ascii.eqb c quote then
            match parse_chars s' with
            | Some (str, rest) => Some (JString str, rest)
            | None => None
            end
          else if Ascii.eqb c "{" then
            match skip_ws s' with
            | String "}" rest => Some (JObject JNil, rest)
            | _ =>
                match parse_members fuel' s' with
                | Some (ms, rest) => Some (JObject ms, rest)
                | None => None
                end
            end
          else
            match parse_number (String c s') with
            | Some (n, rest) => Some (JNumber n, rest)
            | None => None
            end
      end
  end

with parse_members (fuel : nat) (s : string) : option (json_members * string) :=
  match fuel with
  | O => None
  | S fuel' =>
      match skip_ws s with
      | String c s1 =>
          if Ascii.eqb c quote then
            match parse_chars s1 with
            | Some (key, s2) =>
                match skip_ws s2 with
                | String ":" s3 =>
                    match parse_value fuel' s3 with
                    | Some (v, s4) =>
                        match skip_ws s4 with
                        | String "," s5 =>
                            match parse_members fuel' s5 with
                            | Some (ms, rest) => Some (JCons key v ms, rest)
                            | None => None
                            end
                        | String "}" rest => Some (JCons key v JNil, rest)
                        | _ => None
                        end
                    | None => None
                    end
                | _ => None
                end
            | None => None
            end
          else None
      | EmptyString => None
      end
  end.

(** A whole text: one value, then white space only. *)
Definition parse_text (s : string) : option json_value :=
  match parse_value (S (String.length s)) s with
  | Some (v, rest) =>
      match skip_ws rest with
      | EmptyString => Some v
      | String _ _ => None
      end
  | None => None
  end.

(** The member [key] of an object; the last one when the key repeats. *)
Fixpoint member (key : string) (ms : json_members) : option json_value :=
  match ms with
  | JNil => None
  | JCons k v ms' =>
      match member key ms' with
      | Some v' => Some v'
      | None => if String.eqb k key then Some v else None
      end
  end.

Definition as_string (v : option json_value) : option string :=
  match v with Some (JString s) => Some s | _ => None end.

Definition as_number (v : option json_value) : option N :=
  match v with Some (JNumber n) => Some n | _ => None end.

Definition decode_info (v : json_value) : option FileInfo :=
  match v with
  | JObject ms =>
      match as_string (member "uid" ms),
            as_string (member "originalFilename" ms),
            as_string (member "storedFilename" ms),
            as_number (member "size" ms),
            as_string (member "mimeType" ms),
            as_string (member "uploadTime" ms) with
      | Some u, Some o, Some st, Some sz, Some mt, Some t =>
          Some (mkFileInfo u o st sz mt t)
      | _, _, _, _, _, _ => None
      end
  | _ => None
  end.

Fixpoint decode_entries (ms : json_members) : option (list (string * FileInfo)) :=
  match ms with
  | JNil => Some []
  | JCons k v ms' =>
      match decode_info v, decode_entries ms' with
      | Some r, Some rs => Some ((k, r) :: rs)
      | _, _ => None
      end
  end.

(** The registry an object text stands for; of two members with one key
    the later one counts. *)
Definition decode_map (v : json_value) : option (gmap string FileInfo) :=
  match v with
  | JObject ms =>
      match decode_entries ms with
      | Some rs => Some (list_to_map (reverse rs))
      | None => None
      end
  | _ => None
  end.

Definition parse (data : string) : option (gmap string FileInfo) :=
  match parse_text data with
  | Some v => decode_map v
  | None => None
  end.

(** *** Oracles *)

Fixpoint hex_digits (width : nat) (n : nat) (rest : string) : string :=
  match width with
  | O => rest
  | S w => hex_digits w (n / 16) (String (hex_lower (n mod 16)) rest)
  end.

(** The [n]-th identifier: a version-4 UUID whose last group counts. *)
Definition uuid_of_nat (n : nat) : string :=
  "00000000-0000-4000-8000-" +:+ hex_digits 12 n EmptyString.

#[export] Instance platform : Platform := {|
  JSON_stringify := stringify;
  JSON_parse := parse;
  uuidv4 := uuid_of_nat;
  toISOString := fun _ => "2024-01-01T00:00:00.000Z"
|}.

End Codec.

(** * The vocabulary of the properties *)

(** ** Scans of a path *)

Module PathSpec.
Import Path.
Local Close Scope string_scope.
Local Open Scope list_scope.

(** A character that is neither a separator nor a dot. *)
Definition plain (c : ascii) : Prop := is_slash c = false ∧ is_dot c = false.

(** What [path.extname] can return: nothing, or a dot followed by plain
    characters. *)
Definition ext_shape (e : list ascii) : Prop :=
  e = [] ∨ ∃ t, e = "."%char :: t ∧ Forall plain t.

(** The state of the scan when [n] characters are still to be read and
    [suf] has been read: either only separators were seen, or [suf] starts
    with the characters of the last segment, up to index [end_], and the
    last dot of what was read of it stands at [startDot]. *)
Definition scan_inv (n : nat) (suf : list ascii) (st : scan) : Prop :=
  (end_ st = (-1)%Z ∧ startDot st = (-1)%Z ∧ matchedSlash st = true)
  ∨ ∃ seg sl,
      suf = seg ++ sl
      ∧ end_ st = Z.of_nat (n + length seg)
      ∧ Forall (λ c, is_slash c = false) seg
      ∧ matchedSlash st = false
      ∧ ((startDot st = (-1)%Z ∧ Forall (λ c, is_dot c = false) seg)
         ∨ ∃ a t, seg = a ++ "."%char :: t
                  ∧ startDot st = Z.of_nat (n + length a)
                  ∧ Forall (λ c, is_dot c = false) t).

(** What the scan has found when it ends: no dot, no segment, or an
    extension made of a dot and plain characters. *)
Definition scan_result (l : list ascii) (st : scan) : Prop :=
  startDot st = (-1)%Z ∨ end_ st = (-1)%Z
  ∨ ∃ t, slice l (startDot st) (end_ st) = "."%char :: t ∧ Forall plain t.

(** The effect of the loop body on a plain character. *)
Definition scan_plain (i : Z) (st : scan) : scan :=
  mkScan (startDot st) (startPart st)
    (if (end_ st =? -1)%Z then i + 1 else end_ st)%Z
    (if (end_ st =? -1)%Z then false else matchedSlash st)
    (if (startDot st =? -1)%Z then preDotState st else (-1)%Z).

(** A state that further plain characters leave as it is. *)
Definition settled (st : scan) : Prop :=
  end_ st ≠ (-1)%Z ∧ (startDot st = (-1)%Z ∨ preDotState st = (-1)%Z).

(** [path.parse(_).name] of a path that does not start with a separator. *)
Definition parse_relative (l : list ascii) : list ascii :=
  let st := scan_back (rev l) (Z.of_nat (length l) - 1) scan_init in
  if (end_ st =? -1)%Z then []
  else if no_extension st then slice l (startPart st) (end_ st)
       else slice l (startPart st) (startDot st).

End PathSpec.

(** ** Maps filled from a list of entries *)

(** The map after the assignments [m[k] = v] for the entries of [kvs], in
    order. *)
Definition insert_all {V : Type} (kvs : list (string * V))
    (m : gmap string V) : gmap string V :=
  foldl (λ acc kv, <[kv.1 := kv.2]> acc) m kvs.

(** ** The files of an upload *)

(** A part multer keeps: the [filename] of its [file] event is not
    empty.  The parts it drops are those whose [filename] parameter is
    empty, is [.] or [..], or ends in a slash or a backslash. *)
Definition accepted (p : Part) : Prop :=
  Busboy.event_filename (part_originalname p) ≠ EmptyString.

#[global] Instance accepted_dec (p : Part) : Decision (accepted p).
Proof. unfold accepted. apply _. Defined.

(** A part as multer has it: [file.originalname], [file.mimetype] and the
    content. *)
Definition multer_part (p : Part) : Part :=
  mkPart (Busboy.event_filename (part_originalname p))
         (Busboy.event_mimeType (part_mimetype p)) (part_content p).

(** The files multer keeps of the parts of a request, as it has them. *)
Definition kept (parts : list Part) : list Part :=
  multer_part <$> filter accepted parts.

(** ** Runs of the handlers *)

Section Vocabulary.
Context `{Platform}.

(** The state [saveFileMap] leaves: the snapshot rewritten, or the failure
    logged. *)
Definition after_save (s : Server) : Server :=
  if snapshot_writable s
  then set_snapshot (Some (JSON_stringify (fileMap s))) s
  else set_console (console s ++ ["Error saving fileMap:"]) s.

(** [req.files] for the files multer keeps, when [k] calls of [uuidv4]
    were made before the request. *)
Fixpoint stored_files (k : nat) (parts : list Part) : list MulterFile :=
  match parts with
  | [] => []
  | p :: rest =>
      mkMulterFile (part_originalname p)
        (uuidv4 k +:+ Path.extname (part_originalname p))
        (N.of_nat (String.length (part_content p))) (part_mimetype p)
      :: stored_files (S k) rest
  end.

(** The files multer writes for them: name and content. *)
Fixpoint blob_entries (k : nat) (parts : list Part) : list (string * string) :=
  match parts with
  | [] => []
  | p :: rest =>
      (uuidv4 k +:+ Path.extname (part_originalname p), part_content p)
      :: blob_entries (S k) rest
  end.

(** The records the handler builds for [req.files], when the clock was
    read [c] times before. *)
Fixpoint created (c : nat) (files : list MulterFile) : list FileInfo :=
  match files with
  | [] => []
  | file :: rest =>
      mkFileInfo (Path.parse_name (filename file)) (originalname file)
        (filename file) (file_size file) (mimetype file) (toISOString c)
      :: created (S c) rest
  end.

(** The assignments [fileMap[uid] = fileInfo] for a list of records. *)
Definition entries (rs : list FileInfo) : list (string * FileInfo) :=
  (λ r, (uid r, r)) <$> rs.

(** The state after multer has stored the files it keeps. *)
Definition stored (parts : list Part) (s : Server) : Server :=
  mkServer (fileMap s)
    (insert_all (blob_entries (uuid_calls s) parts) (uploads s))
    (snapshot s) (snapshot_writable s) (console s)
    (uuid_calls s + length parts) (clock_reads s).

(** The state after the [forEach] of the handler and before [saveFileMap]. *)
Definition registered (files : list MulterFile) (s : Server) : Server :=
  mkServer (insert_all (entries (created (clock_reads s) files)) (fileMap s))
    (uploads s) (snapshot s) (snapshot_writable s) (console s)
    (uuid_calls s) (clock_reads s + length files).

(** The identifiers [uuidv4] returns while multer stores [n] files. *)
Definition drawn_ids (s : Server) (n : nat) : list string :=
  uuidv4 <$> seq (uuid_calls s) n.

(** A record whose stored name is its identifier followed by the extension
    of the original name. *)
Definition well_named (r : FileInfo) : Prop :=
  storedFilename r = uid r +:+ Path.extname (originalFilename r).

(** Key/record coherence of a registry. *)
Definition coherent (m : gmap string FileInfo) : Prop :=
  ∀ k r, m !! k = Some r → uid r = k ∧ well_named r.

(** Each part and the record created for it: the name and the type are
    the ones busboy read, the size is the length of the content, and the
    blob is the content. *)
Definition record_of (blobs : gmap string string) (p : Part) (r : FileInfo) : Prop :=
  originalFilename r = Busboy.event_filename (part_originalname p)
  ∧ mimeType r = Busboy.event_mimeType (part_mimetype p)
  ∧ size r = N.of_nat (String.length (part_content p))
  ∧ blobs !! storedFilename r = Some (part_content p).

(** The registry a process started on the given snapshot holds, [None]
    when the start fails. *)
Definition loaded (snap : option string) (writable : bool)
    : option (gmap string FileInfo) :=
  match snap with
  | None => Some ∅
  | Some data =>
      match JSON_parse data with
      | Some m => Some m
      | None => if writable then Some ∅ else None
      end
  end.

(** Restarting the process on the file system of [s] yields the registry
    of [s]. *)
Definition reproduces (s : Server) : Prop :=
  ∃ s', startup (uploads s) (snapshot s) (snapshot_writable s) = (Normal tt, s')
        ∧ fileMap s' = fileMap s.

End Vocabulary.

(** ** Measures on JSON values *)

Module CodecSpec.
Import Codec.

(** The value of a decimal numeral read after the digits that gave [acc]. *)
Fixpoint uint_value (d : Decimal.uint) (acc : N) : N :=
  match d with
  | Decimal.Nil => acc
  | Decimal.D0 d' => uint_value d' (10 * acc + 0)
  | Decimal.D1 d' => uint_value d' (10 * acc + 1)
  | Decimal.D2 d' => uint_value d' (10 * acc + 2)
  | Decimal.D3 d' => uint_value d' (10 * acc + 3)
  | Decimal.D4 d' => uint_value d' (10 * acc + 4)
  | Decimal.D5 d' => uint_value d' (10 * acc + 5)
  | Decimal.D6 d' => uint_value d' (10 * acc + 6)
  | Decimal.D7 d' => uint_value d' (10 * acc + 7)
  | Decimal.D8 d' => uint_value d' (10 * acc + 8)
  | Decimal.D9 d' => uint_value d' (10 * acc + 9)
  end%N.

(** A numeral without superfluous zeros: [0], or one that starts with a
    digit from 1 to 9. *)
Definition normal (d : Decimal.uint) : Prop :=
  match d with
  | Decimal.Nil => False
  | Decimal.D0 d' => d' = Decimal.Nil
  | _ => True
  end.

(** The fuel the parser uses on a printed value. *)
Fixpoint value_fuel (v : json_value) : nat :=
  match v with
  | JObject ms => S (members_fuel ms)
  | _ => 1
  end
with members_fuel (ms : json_members) : nat :=
  match ms with
  | JNil => 0
  | JCons _ v ms' => S (value_fuel v + members_fuel ms')
  end.

(** What may follow a printed value: after a number, no digit. *)
Definition may_follow (v : json_value) (rest : string) : Prop :=
  match v with
  | JNumber _ => starts_with_digit rest = false
  | _ => True
  end.

Scheme json_value_both := Induction for json_value Sort Prop
  with json_members_both := Induction for json_members Sort Prop.

Combined Scheme json_both from json_value_both, json_members_both.

End CodecSpec.

(** ** Sample states

    On the platform of [Module Codec]: a server that starts on an empty
    directory, one whose snapshot cannot be written, and one that holds a
    report. *)

Module Sample.
Import Codec.

Definition report : Part :=
  mkPart "report.pdf" "application/pdf" "%PDF-1.7 report".

Definition notes : Part :=
  mkPart "notes.tar.gz" "application/gzip" "notes".

(** A part whose file name multer drops. *)
Definition dotdot : Part := mkPart ".." "text/plain" "x".

(** A part with a name that is not ASCII (an e with an acute accent after
    the r, in UTF-8) and a type with a parameter. *)
Definition resume : Part :=
  mkPart (String (ascii_of_nat 114)
            (String (ascii_of_nat 195) (String (ascii_of_nat 169) "sum.txt")))
         "Text/Plain; charset=utf-8" "cv".

Definition report_id : string := "00000000-0000-4000-8000-000000000000".

Definition report_record : FileInfo :=
  mkFileInfo report_id "report.pdf" (report_id +:+ ".pdf") 15
    "application/pdf" "2024-01-01T00:00:00.000Z".

Definition fresh_server : Server := boot ∅ None true.

Definition read_only_server : Server := boot ∅ None false.

Definition serving : Server :=
  mkServer {[ report_id := report_record ]}
    {[ storedFilename report_record := part_content report ]}
    (Some (stringify {[ report_id := report_record ]})) true [] 1 1.

End Sample.

(** * Runs of several requests *)

Section Serve.
Context `{Platform}.

(** The server answers the requests it receives one after the other (the
    handlers are synchronous): the answers, in order, and the last state. *)
Fixpoint serve (reqs : list Request) (s : Server)
    : list (completion Response) * Server :=
  match reqs with
  | [] => ([], s)
  | req :: rest =>
      let '(answer, s') := handle req s in
      let '(answers, s'') := serve rest s' in
      (answer :: answers, s'')
  end.

End Serve.

(** * The client

    The computations of the React client on the records the server lists:
    [api/fileService.ts], [App.tsx], [components/FileList.tsx] and
    [components/FileUpload.tsx].  Network failures are not modelled: a call
    of [fetch] reaches the handler of its route. *)

Module Client.

(** ** [api/fileService.ts] *)

(** [response.ok]: a status from 200 to 299. *)
Definition response_ok (r : Response) : bool :=
  ((200 <=? status r) && (status r <? 300))%nat.

(** [errorData.error] for the body parsed by [response.json()],
    [None] for [undefined]. *)
Definition error_field (b : Body) : option string :=
  match b with
  | ErrorBody e => Some e
  | _ => None
  end.

(** [data.files]. *)
Definition files_field (b : Body) : option (list FileInfo) :=
  match b with
  | UploadBody _ files => Some files
  | _ => None
  end.

(** [errorData.error || fallback]: the empty string is falsy. *)
Definition or_else (e : option string) (fallback : string) : string :=
  match e with
  | Some (String c e') => String c e'
  | _ => fallback
  end.

Section FileService.
Context `{Platform}.

(** [await response.json()]: the body as a JSON value.  The bytes of a
    stream and the error page express sends for a handler that threw are
    no JSON text. *)
Definition response_json (answer : completion Response) : completion Body :=
  match answer with
  | Normal resp =>
      match body resp with
      | StreamBody _ => Throw "SyntaxError"
      | b => Normal b
      end
  | Throw _ => Throw "SyntaxError"
  end.

(** [answer.ok], [false] for the error page (status 500). *)
Definition answer_ok (answer : completion Response) : bool :=
  match answer with
  | Normal resp => response_ok resp
  | Throw _ => false
  end.

(** The check the three functions make first: on an answer that is not
    [ok], throw an [Error] with the text of the answer, or with the
    fallback text. *)
Definition reject_unless_ok (fallback : string) (answer : completion Response)
    : completion unit :=
  if answer_ok answer then Normal tt
  else
    match response_json answer with
    | Normal errorData => Throw (or_else (error_field errorData) fallback)
    | Throw e => Throw e
    end.

(** Lines 8-33: [uploadFiles].  Each [File] becomes one file part of the
    multipart form, in the field [files]; [files] are these parts as the
    browser sends them.  The result is [data.files]. *)
Definition uploadFiles (files : list Part)
    : Server -> completion (option (list FileInfo)) * Server :=
  fun s =>
    let '(answer, s') := handle (Upload (Some files)) s in
    (match reject_unless_ok "Upload failed" answer with
     | Normal _ =>
         match response_json answer with
         | Normal data => Normal (files_field data)
         | Throw e => Throw e
         end
     | Throw e => Throw e
     end, s').


(** A [uid] that is a path segment as it stands: not empty, and made of
    letters, digits, [-] and [_].  The URL of [deleteFile] is then
    [/api/files/] followed by [uid], and the route hands [uid] to the
    handler. *)
Definition segment_char (c : ascii) : bool :=
  let n := nat_of_ascii c in
  ((48 <=? n)%nat && (n <=? 57)%nat) || ((65 <=? n)%nat && (n <=? 90)%nat)
  || ((97 <=? n)%nat && (n <=? 122)%nat)
  || Ascii.eqb c "-" || Ascii.eqb c "_".

Definition path_segment (uid : string) : bool :=
  negb (String.eqb uid EmptyString)
  && forallb segment_char (list_ascii_of_string uid).

(** Lines 63-77: [deleteFile], for a [uid] that reaches the handler as it
    stands (see [path_segment]); the URL made of another [uid] can match
    no route, or hand the handler another identifier. *)
Definition deleteFile (uid : string) : Server -> completion unit * Server :=
  fun s =>
    let '(answer, s') := handle (Delete uid) s in
    (reject_unless_ok "Failed to delete file" answer, s').

End FileService.

(** ** [App.tsx] *)

(** [Array.prototype.sort] with a comparison function: the sort is stable,
    and with a consistent comparison its result is the one list that
    orders the elements by the comparison and keeps equal elements in
    their order; insertion from the right computes it. *)
Fixpoint sort_insert {A : Type} (compare : A -> A -> Z) (x : A) (l : list A)
    : list A :=
  match l with
  | [] => [x]
  | y :: l' =>
      if (0 <? compare x y)%Z then y :: sort_insert compare x l'
      else x :: y :: l'
  end.

Definition Array_sort {A : Type} (compare : A -> A -> Z) (l : list A) : list A :=
  foldr (sort_insert compare) [] l.

Section App.
(** [new Date(text).getTime()], for the texts [toISOString] printed. *)
Variable getTime : string -> Z.

(** Lines 19-21: the comparison of [fetchFiles], newest first. *)
Definition newest_first (a b : FileInfo) : Z :=
  (getTime (uploadTime b) - getTime (uploadTime a))%Z.

(** Lines 13-28: the list [fetchFiles] stores for the array [data] that
    [getFiles] returned. *)
Definition fetchFiles_files (data : list FileInfo) : list FileInfo :=
  Array_sort newest_first data.

End App.


(** ** [components/FileList.tsx] *)

(** Lines 101-106: one step of the [reduce] that groups the files by name.
    [acc] is a plain object: [acc[name]] is the own array when there is
    one; else, for a member name of [Object.prototype], the inherited
    member, which is truthy and has no [push], so that line 105 throws a
    [TypeError]; else [undefined], and line 103 creates the array. *)
Definition group_file (acc : gmap string (list FileInfo)) (file : FileInfo)
    : completion (gmap string (list FileInfo)) :=
  let name := originalFilename file in
  match acc !! name with
  | Some group => Normal (<[name := (group ++ [file])%list]> acc)
  | None =>
      if bool_decide (name ∈ Object_prototype) then Throw "TypeError"
      else Normal (<[name := [file]]> acc)
  end.

(** Lines 100-107: [filteredFiles.reduce(_, acc)]. *)
Fixpoint reduce_groups (filteredFiles : list FileInfo)
    (acc : gmap string (list FileInfo))
    : completion (gmap string (list FileInfo)) :=
  match filteredFiles with
  | [] => Normal acc
  | file :: rest =>
      match group_file acc file with
      | Normal acc' => reduce_groups rest acc'
      | Throw e => Throw e
      end
  end.

Definition groupedFiles (filteredFiles : list FileInfo)
    : completion (gmap string (list FileInfo)) :=
  reduce_groups filteredFiles ∅.

(** ** [components/FileUpload.tsx] *)

(** [prev.filter((_, i) => keep(i))], for the elements from index [i] on. *)
Fixpoint filter_index {A : Type} (keep : nat -> bool) (i : nat) (l : list A)
    : list A :=
  match l with
  | [] => []
  | x :: l' =>
      if keep i then x :: filter_index keep (S i) l'
      else filter_index keep (S i) l'
  end.

(** Lines 45-47: the update of [removeFile]. *)
Definition removeFile {A : Type} (index : nat) (prev : list A) : list A :=
  filter_index (fun i => negb (i =? index)%nat) 0 prev.

End Client.

(** * More vocabulary *)

(** A request as express hands it to a handler: the [uid] of a download
    or a delete is not empty. *)
Definition routed (req : Request) : Prop :=
  match req with
  | Download uid | Delete uid => uid ≠ EmptyString
  | _ => True
  end.

(** An answer as the routes give them: 200 without an [error], or 400,
    404 or 500 with a non-empty [error] text. *)
Definition regular_answer (resp : Response) : Prop :=
  (status resp = 200 ∧ ∀ e, body resp ≠ ErrorBody e)
  ∨ (status resp ∈ [400; 404; 500]
     ∧ ∃ e, body resp = ErrorBody e ∧ e ≠ EmptyString).

Section MoreVocabulary.
Context `{Platform}.

(** The snapshot file holds the text of the whole registry. *)
Definition in_step (s : Server) : Prop :=
  snapshot s = Some (JSON_stringify (fileMap s)).

(** Every record is keyed by its [uid], a UUID, is named after it, has a
    mime type that is a header value, and has its blob. *)
Definition intact (s : Server) : Prop :=
  ∀ k r, fileMap s !! k = Some r →
    is_uuid k = true ∧ uid r = k ∧ well_named r
    ∧ checkInvalidHeaderChar (mimeType r) = false
    ∧ is_Some (uploads s !! storedFilename r).

(** The answer of a download that streams the blob [bytes] of [info]. *)
Definition streamed (info : FileInfo) (bytes : string) : Response :=
  mkResponse 200
    [ ("Content-Type", HString (mimeType info));
      ("Content-Disposition",
       HString ("attachment; filename=" +:+ dquote
                +:+ encodeURIComponent (originalFilename info) +:+ dquote));
      ("Content-Length", HNumber (size info)) ]
    (StreamBody bytes).

End MoreVocabulary.

(** A character that may stand between the quotes of a header value:
    printable, and neither a quote nor a backslash. *)
Definition quotable (c : ascii) : Prop :=
  (32 < nat_of_ascii c < 127)%nat
  ∧ nat_of_ascii c ≠ 34%nat ∧ nat_of_ascii c ≠ 92%nat.

(** The members of a group, in the order of the list. *)
Definition named (name : string) (files : list FileInfo) : list FileInfo :=
  filter (fun file => originalFilename file = name) files.

(** * Properties *)

(** ** Header values *)

(** The code of a given character, computed. *)
Ltac ascii_code :=
  match goal with
  | |- context [nat_of_ascii ?c] =>
      let v := eval vm_compute in (nat_of_ascii c) in
      progress change (nat_of_ascii c) with v
  end.

Section HeaderChars.

Lemma hex_upper_quotable (n : nat) : n < 16 → quotable (hex_upper n).
Proof.
  intros Hn.
  do 16 (destruct n as [|n]; [unfold quotable; repeat ascii_code; lia |]). lia.
Qed.

Lemma unreserved_quotable (c : ascii) : uri_unreserved c = true → quotable c.
Proof.
  destruct c as [[] [] [] [] [] [] [] []]; intros Hc;
    try discriminate Hc; unfold quotable; repeat ascii_code; lia.
Qed.

Lemma encodeURIComponent_quotable (text : string) :
  Forall quotable (list_ascii_of_string (encodeURIComponent text)).
Proof.
  induction text as [|c text IH]; [constructor |].
  cbn [encodeURIComponent]. destruct (uri_unreserved c) eqn:Hc.
  - constructor; [by apply unreserved_quotable | exact IH].
  - pose proof (nat_ascii_bounded c) as Hb.
    cbn [list_ascii_of_string].
    apply Forall_cons; split; [unfold quotable; repeat ascii_code; lia |].
    apply Forall_cons; split.
    { apply hex_upper_quotable. apply Nat.Div0.div_lt_upper_bound. lia. }
    apply Forall_cons; split; [| exact IH].
    apply hex_upper_quotable. apply Nat.mod_upper_bound. lia.
Qed.

(** Printable ASCII in front of a header value does not make it invalid. *)
Lemma checkInvalidHeaderChar_app (a b : string) :
  Forall (λ c, (32 ≤ nat_of_ascii c ≤ 126)%nat) (list_ascii_of_string a) →
  checkInvalidHeaderChar (a +:+ b) = checkInvalidHeaderChar b.
Proof.
  induction a as [|c a IH]; intros Ha; [reflexivity |].
  apply Forall_cons in Ha as [Hc Ha].
  change (String c a +:+ b) with (String c (a +:+ b)).
  assert (Hok : ((nat_of_ascii c =? 9)
                 || (32 <=? nat_of_ascii c) && (nat_of_ascii c <=? 126))%nat = true).
  { apply orb_true_iff. right. apply andb_true_iff.
    split; apply Nat.leb_le; lia. }
  cbn [checkInvalidHeaderChar]. cbv zeta. rewrite Hok. by apply IH.
Qed.

Lemma checkInvalidHeaderChar_printable (a : string) :
  Forall (λ c, (32 ≤ nat_of_ascii c ≤ 126)%nat) (list_ascii_of_string a) →
  checkInvalidHeaderChar a = false.
Proof.
  intros Ha. pose proof (checkInvalidHeaderChar_app a EmptyString Ha) as Happ.
  replace (a +:+ EmptyString) with a in Happ; [exact Happ |].
  clear. induction a as [|c a IH]; [reflexivity |].
  change (String c a +:+ EmptyString) with (String c (a +:+ EmptyString)).
  by rewrite <- IH.
Qed.

(** The value of line 141 is a header value, whatever the name. *)
Lemma disposition_is_header_value (name : string) :
  checkInvalidHeaderChar
    ("attachment; filename=" +:+ dquote +:+ encodeURIComponent name +:+ dquote)
  = false.
Proof.
  rewrite (checkInvalidHeaderChar_app "attachment; filename=")
    by (repeat constructor; repeat ascii_code; lia).
  rewrite (checkInvalidHeaderChar_app dquote)
    by (repeat constructor; repeat ascii_code; lia).
  rewrite checkInvalidHeaderChar_app; [reflexivity |].
  eapply Forall_impl; [apply encodeURIComponent_quotable |].
  intros c (Hc & _). simpl in *. lia.
Qed.

End HeaderChars.

(** ** What busboy reads *)

Module BusboyFacts.
Import Busboy.

Lemma token_prefix_tokens (str : string) :
  Forall (λ c, TOKEN c = true) (list_ascii_of_string (token_prefix str).1).
Proof.
  induction str as [|c str IH]; [constructor |]. cbn [token_prefix].
  destruct (TOKEN c) eqn:Hc; [| constructor].
  destruct (token_prefix str) as [token rest]. simpl in *. by constructor.
Qed.

Lemma toLowerCase_char_printable (c : ascii) :
  TOKEN c = true → (32 ≤ nat_of_ascii (toLowerCase_char c) ≤ 126)%nat.
Proof.
  destruct c as [[] [] [] [] [] [] [] []]; intros Hc;
    try discriminate Hc; repeat ascii_code; lia.
Qed.

Lemma toLowerCase_printable (token : string) :
  Forall (λ c, TOKEN c = true) (list_ascii_of_string token) →
  Forall (λ c, (32 ≤ nat_of_ascii c ≤ 126)%nat)
    (list_ascii_of_string (toLowerCase token)).
Proof.
  induction token as [|c token IH]; intros Htoken; [constructor |].
  apply Forall_cons in Htoken as [Hc Htoken]. cbn [toLowerCase list_ascii_of_string].
  constructor; [by apply toLowerCase_char_printable | by apply IH].
Qed.

Lemma parseContentType_printable (str type subtype : string) :
  parseContentType str = Some (type, subtype) →
  Forall (λ c, (32 ≤ nat_of_ascii c ≤ 126)%nat) (list_ascii_of_string type)
  ∧ Forall (λ c, (32 ≤ nat_of_ascii c ≤ 126)%nat) (list_ascii_of_string subtype).
Proof.
  unfold parseContentType.
  pose proof (token_prefix_tokens str) as Htype.
  destruct (token_prefix str) as [[|c0 type0] [|c rest]]; try discriminate.
  destruct (Ascii.eqb c "/"); [| discriminate].
  pose proof (token_prefix_tokens rest) as Hsubtype.
  destruct (token_prefix rest) as [[|c1 subtype0] params]; [discriminate |].
  destruct (parseContentTypeParams params BeforeSemicolon); [| discriminate].
  intros [= <- <-]. split.
  - by apply (toLowerCase_printable (String c0 type0)).
  - by apply (toLowerCase_printable (String c1 subtype0)).
Qed.

(** The type busboy gives a part is a header value. *)
Lemma event_mimeType_is_header_value (content_type : string) :
  checkInvalidHeaderChar (event_mimeType content_type) = false.
Proof.
  unfold event_mimeType.
  destruct (parseContentType (latin1Slice content_type)) as [[type subtype]|] eqn:Hparse;
    [| reflexivity].
  apply parseContentType_printable in Hparse as [Htype Hsubtype].
  rewrite checkInvalidHeaderChar_app by done.
  rewrite (checkInvalidHeaderChar_app "/")
    by (repeat constructor; repeat ascii_code; lia).
  by apply checkInvalidHeaderChar_printable.
Qed.

End BusboyFacts.

(** ** The handlers, one by one *)

Section HandlerFacts.
Context `{Platform}.

Lemma saveFileMap_run (s : Server) : saveFileMap s = (Normal tt, after_save s).
Proof.
  unfold saveFileMap, after_save, try_catch, bind, get, writeFileSync_fileMapPath.
  simpl. destruct (snapshot_writable s); reflexivity.
Qed.

Lemma fileMap_after_save (s : Server) : fileMap (after_save s) = fileMap s.
Proof. unfold after_save. destruct (snapshot_writable s); reflexivity. Qed.

Lemma uploads_after_save (s : Server) : uploads (after_save s) = uploads s.
Proof. unfold after_save. destruct (snapshot_writable s); reflexivity. Qed.

Lemma get_property_own (m : gmap string FileInfo) (k : string) (info : FileInfo) :
  m !! k = Some info → get_property m k = VRecord info.
Proof. unfold get_property. intros ->. reflexivity. Qed.

Lemma get_property_undefined (m : gmap string FileInfo) (k : string) :
  m !! k = None → k ∉ Object_prototype → get_property m k = VUndefined.
Proof.
  unfold get_property. intros -> Hk. rewrite bool_decide_eq_false_2; done.
Qed.

Lemma get_property_inherited (m : gmap string FileInfo) (k : string) :
  m !! k = None → k ∈ Object_prototype → get_property m k = VInherited k.
Proof.
  unfold get_property. intros -> Hk. rewrite bool_decide_eq_true_2; done.
Qed.

(** *** [GET /files] *)

Lemma get_files_run (s : Server) :
  get_files s =
    (Normal (mkResponse 200 [("Content-Type", HString "application/json")]
               (FilesBody (Object_values (fileMap s)))), s).
Proof. reflexivity. Qed.

Lemma Object_values_keys (m : gmap string FileInfo) :
  Forall2 (λ k r, m !! k = Some r) (map_to_list m).*1 (Object_values m).
Proof.
  unfold Object_values.
  assert (Hall : Forall (λ kr, m !! kr.1 = Some kr.2) (map_to_list m)).
  { apply Forall_forall. intros [k r] Hin. by apply elem_of_map_to_list. }
  induction Hall as [|[k r] l Hkr _ IH]; simpl; constructor; done.
Qed.

(** *** [GET /download/:uid] *)

Lemma download_unknown (s : Server) (id : string) :
  fileMap s !! id = None → id ∉ Object_prototype →
  get_download id s = (Normal (json 404 (ErrorBody "File not found")), s).
Proof.
  intros Hnone Hproto. unfold get_download, try_catch, bind, get. simpl.
  rewrite get_property_undefined by done. reflexivity.
Qed.

Lemma download_missing_blob (s : Server) (id : string) (info : FileInfo) :
  fileMap s !! id = Some info → uploads s !! storedFilename info = None →
  get_download id s =
    (Normal (json 404 (ErrorBody "File not found on server")),
     after_save (set_fileMap (delete id (fileMap s)) s)).
Proof.
  intros Hinfo Hblob. unfold get_download, try_catch, bind, get, existsSync_upload.
  simpl. rewrite (get_property_own _ _ _ Hinfo). simpl.
  rewrite Hblob. rewrite bool_decide_eq_false_2 by (intros [? ?]; done). simpl.
  unfold modify. rewrite saveFileMap_run. reflexivity.
Qed.

Lemma download_present (s : Server) (id : string) (info : FileInfo) (bytes : string) :
  fileMap s !! id = Some info → uploads s !! storedFilename info = Some bytes →
  checkInvalidHeaderChar (mimeType info) = false →
  get_download id s =
    (Normal (mkResponse 200
               [ ("Content-Type", HString (mimeType info));
                 ("Content-Disposition",
                  HString ("attachment; filename=" +:+ dquote
                           +:+ encodeURIComponent (originalFilename info)
                           +:+ dquote));
                 ("Content-Length", HNumber (size info)) ]
               (StreamBody bytes)), s).
Proof.
  intros Hinfo Hblob Htype.
  unfold get_download, try_catch, bind, get, existsSync_upload, read_upload,
    res_setHeader.
  rewrite (get_property_own _ _ _ Hinfo), Htype, disposition_is_header_value.
  simpl. rewrite Hblob. rewrite bool_decide_eq_true_2 by eauto. simpl.
  rewrite Hblob. reflexivity.
Qed.

(** A stored [mimeType] that is no header value: line 140 throws. *)
Lemma download_invalid_type (s : Server) (id : string) (info : FileInfo)
    (bytes : string) :
  fileMap s !! id = Some info → uploads s !! storedFilename info = Some bytes →
  checkInvalidHeaderChar (mimeType info) = true →
  get_download id s =
    (Normal (json 500 (ErrorBody "File download failed")),
     set_console (console s ++ ["Download error:"]) s).
Proof.
  intros Hinfo Hblob Htype.
  unfold get_download, try_catch, bind, get, existsSync_upload, res_setHeader.
  rewrite (get_property_own _ _ _ Hinfo), Htype.
  simpl. rewrite Hblob. rewrite bool_decide_eq_true_2 by eauto. reflexivity.
Qed.

(** The handler, case by case. *)
Lemma download_run (s : Server) (id : string) :
  get_download id s
  = match fileMap s !! id with
    | Some info =>
        match uploads s !! storedFilename info with
        | Some bytes =>
            if checkInvalidHeaderChar (mimeType info)
            then (Normal (json 500 (ErrorBody "File download failed")),
                  set_console (console s ++ ["Download error:"]) s)
            else (Normal (mkResponse 200
                            [ ("Content-Type", HString (mimeType info));
                              ("Content-Disposition",
                               HString ("attachment; filename=" +:+ dquote
                                        +:+ encodeURIComponent (originalFilename info)
                                        +:+ dquote));
                              ("Content-Length", HNumber (size info)) ]
                            (StreamBody bytes)), s)
        | None =>
            (Normal (json 404 (ErrorBody "File not found on server")),
             after_save (set_fileMap (delete id (fileMap s)) s))
        end
    | None =>
        if bool_decide (id ∈ Object_prototype)
        then (Normal (json 500 (ErrorBody "File download failed")),
              set_console (console s ++ ["Download error:"]) s)
        else (Normal (json 404 (ErrorBody "File not found")), s)
    end.
Proof.
  destruct (fileMap s !! id) as [info|] eqn:Hinfo.
  - destruct (uploads s !! storedFilename info) as [bytes|] eqn:Hblob.
    + destruct (checkInvalidHeaderChar (mimeType info)) eqn:Htype.
      * by apply (download_invalid_type s id info bytes).
      * by apply download_present.
    + by apply (download_missing_blob s id info).
  - case_bool_decide.
    + unfold get_download, try_catch, bind, get. simpl.
      rewrite get_property_inherited by done. reflexivity.
    + by apply download_unknown.
Qed.

Lemma download_inherited (s : Server) (id : string) :
  fileMap s !! id = None → id ∈ Object_prototype →
  get_download id s =
    (Normal (json 500 (ErrorBody "File download failed")),
     set_console (console s ++ ["Download error:"]) s).
Proof.
  intros Hnone Hproto. unfold get_download, try_catch, bind, get. simpl.
  rewrite get_property_inherited by done. reflexivity.
Qed.

(** *** [DELETE /files/:uid] *)

Lemma delete_unknown (s : Server) (id : string) :
  fileMap s !! id = None → id ∉ Object_prototype →
  delete_file id s = (Normal (json 404 (ErrorBody "File not found")), s).
Proof.
  intros Hnone Hproto. unfold delete_file, try_catch, bind, get. simpl.
  rewrite get_property_undefined by done. reflexivity.
Qed.

Lemma delete_known (s : Server) (id : string) (info : FileInfo) :
  fileMap s !! id = Some info →
  delete_file id s =
    (Normal (json 200 (MessageBody "File deleted successfully")),
     after_save (set_fileMap (delete id (fileMap s))
                   (set_uploads (delete (storedFilename info) (uploads s)) s))).
Proof.
  intros Hinfo.
  unfold delete_file, try_catch, bind, get, existsSync_upload, unlinkSync_upload.
  simpl. rewrite (get_property_own _ _ _ Hinfo). simpl.
  destruct (uploads s !! storedFilename info) as [bytes|] eqn:Hblob.
  - rewrite bool_decide_eq_true_2 by eauto. rewrite Hblob. simpl.
    unfold modify. rewrite saveFileMap_run. reflexivity.
  - rewrite bool_decide_eq_false_2 by (intros [? ?]; done). simpl.
    unfold modify. rewrite saveFileMap_run.
    rewrite (delete_id (uploads s)) by done. destruct s; reflexivity.
Qed.

Lemma delete_inherited (s : Server) (id : string) :
  fileMap s !! id = None → id ∈ Object_prototype →
  delete_file id s =
    (Normal (json 500 (ErrorBody "File deletion failed")),
     set_console (console s ++ ["Delete error:"]) s).
Proof.
  intros Hnone Hproto. unfold delete_file, try_catch, bind, get. simpl.
  rewrite get_property_inherited by done. reflexivity.
Qed.

End HandlerFacts.

(** ** The load at process start *)

Section Startup.
Context `{Platform}.

Lemma startup_absent (files : gmap string string) (writable : bool) :
  startup files None writable = (Normal tt, boot files None writable).
Proof. reflexivity. Qed.

Lemma startup_well_formed (files : gmap string string) (data : string)
    (writable : bool) (m : gmap string FileInfo) :
  JSON_parse data = Some m →
  startup files (Some data) writable
  = (Normal tt, set_fileMap m (boot files (Some data) writable)).
Proof.
  intros Hparse.
  unfold startup, load_fileMap, bind, try_catch, modify, existsSync_fileMapPath,
    get, readFileSync_fileMapPath, JSON_parse_call.
  simpl. rewrite Hparse. reflexivity.
Qed.

Lemma startup_malformed_writable (files : gmap string string) (data : string) :
  JSON_parse data = None →
  startup files (Some data) true
  = (Normal tt,
     mkServer ∅ files (Some (JSON_stringify ∅)) true ["Error loading fileMap:"] 0 0).
Proof.
  intros Hparse.
  unfold startup, load_fileMap, bind, try_catch, modify, existsSync_fileMapPath,
    get, readFileSync_fileMapPath, JSON_parse_call.
  simpl. rewrite Hparse. reflexivity.
Qed.

Lemma startup_malformed_unwritable (files : gmap string string) (data : string) :
  JSON_parse data = None →
  startup files (Some data) false
  = (Throw "EACCES",
     mkServer ∅ files (Some data) false ["Error loading fileMap:"] 0 0).
Proof.
  intros Hparse.
  unfold startup, load_fileMap, bind, try_catch, modify, existsSync_fileMapPath,
    get, readFileSync_fileMapPath, JSON_parse_call.
  simpl. rewrite Hparse. reflexivity.
Qed.

End Startup.

(** ** File names: [path.extname] and [path.parse] *)

Module PathFacts.
Import Path PathSpec.
Local Close Scope string_scope.
Local Open Scope list_scope.

Lemma is_dot_eq (c : ascii) : is_dot c = true → c = "."%char.
Proof. unfold is_dot. apply Ascii.eqb_eq. Qed.

Lemma slice_middle (pre a t sl : list ascii) :
  slice (pre ++ (a ++ "."%char :: t) ++ sl)
        (Z.of_nat (length pre + length a))
        (Z.of_nat (length pre + length (a ++ "."%char :: t)))
  = "."%char :: t.
Proof.
  unfold slice. rewrite !Nat2Z.id, length_app. simpl.
  replace (length pre + (length a + S (length t)) - (length pre + length a))
    with (length ("."%char :: t)) by (simpl; lia).
  replace (pre ++ (a ++ "."%char :: t) ++ sl)
    with ((pre ++ a) ++ ("."%char :: t) ++ sl)
    by (rewrite <- !app_assoc; reflexivity).
  rewrite <- (length_app pre a), drop_app_length.
  apply take_app_length.
Qed.

Lemma scan_inv_result (pre suf : list ascii) (st : scan) :
  scan_inv (length pre) suf st → scan_result (pre ++ suf) st.
Proof.
  intros [(He & Hd & _) | (seg & sl & -> & He & Hseg & _ & Hdot)].
  - left. exact Hd.
  - destruct Hdot as [[Hd _] | (a & t & -> & Hd & Ht)].
    + left. exact Hd.
    + right. right. exists t. split.
      * rewrite He, Hd. apply slice_middle.
      * apply Forall_app in Hseg as [_ Hseg]. apply Forall_cons in Hseg as [_ Hseg].
        apply Forall_forall. intros c Hc. split.
        -- by apply (proj1 (Forall_forall _ _) Hseg).
        -- by apply (proj1 (Forall_forall _ _) Ht).
Qed.

Lemma scan_inv_char (n : nat) (c : ascii) (suf : list ascii) (st : scan) :
  is_slash c = false →
  scan_inv (S n) suf st →
  scan_inv n (c :: suf) (scan_char c (Z.of_nat n) st).
Proof.
  intros Hc [(He & Hd & Hm) | (seg & sl & -> & He & Hseg & Hm & Hdot)].
  - right. exists [c], suf. unfold scan_char. rewrite He. simpl. rewrite Hd. simpl.
    destruct (is_dot c) eqn:Hdc; simpl.
    + repeat split; [lia | by constructor | ].
      right. exists [], []. apply is_dot_eq in Hdc as ->.
      repeat split; [simpl; lia | constructor].
    + repeat split; [lia | by constructor | ]. left. split; [done | by constructor].
  - right. exists (c :: seg), sl. unfold scan_char.
    assert (Hne : (end_ st =? -1)%Z = false) by (apply Z.eqb_neq; lia).
    rewrite Hne.
    assert (Hend : end_ st = Z.of_nat (n + length (c :: seg))) by (simpl; lia).
    assert (Hseg' : Forall (λ c, is_slash c = false) (c :: seg)) by by constructor.
    destruct (is_dot c) eqn:Hdc.
    + destruct Hdot as [[Hd Hnd] | (a & t & -> & Hd & Ht)].
      * rewrite Hd. simpl. repeat split; try done.
        right. exists [], seg. apply is_dot_eq in Hdc as ->.
        repeat split; [simpl; lia | done].
      * assert (Hsd : (startDot st =? -1)%Z = false) by (apply Z.eqb_neq; lia).
        rewrite Hsd.
        assert (Hshape : ∃ a' t', c :: a ++ "."%char :: t = a' ++ "."%char :: t'
                  ∧ startDot st = Z.of_nat (n + length a')
                  ∧ Forall (λ c, is_dot c = false) t').
        { exists (c :: a), t. repeat split; [simpl; lia | done]. }
        destruct (negb (preDotState st =? 1)%Z); simpl; repeat split; try done;
          right; exact Hshape.
    + destruct Hdot as [[Hd Hnd] | (a & t & -> & Hd & Ht)].
      * rewrite Hd. simpl. repeat split; try done.
        left. split; [done | by constructor].
      * assert (Hsd : (startDot st =? -1)%Z = false) by (apply Z.eqb_neq; lia).
        rewrite Hsd. simpl. repeat split; try done.
        right. exists (c :: a), t. repeat split; [simpl; lia | done].
Qed.

Lemma scan_back_result (cs suf : list ascii) (st : scan) (i : Z) :
  i = (Z.of_nat (length cs) - 1)%Z →
  scan_inv (length cs) suf st →
  scan_result (rev cs ++ suf) (scan_back cs i st).
Proof.
  revert suf st i. induction cs as [|c cs IH]; intros suf st i Hi Hinv.
  - simpl. apply (scan_inv_result [] suf st Hinv).
  - assert (Hi' : i = Z.of_nat (length cs)) by (simpl length in Hi; lia).
    simpl scan_back. destruct (is_slash c) eqn:Hc.
    + destruct (negb (matchedSlash st)) eqn:Hm.
      * rewrite <- (length_rev (c :: cs)) in Hinv.
        apply (scan_inv_result (rev (c :: cs)) suf) in Hinv. exact Hinv.
      * simpl rev. rewrite <- app_assoc. simpl app.
        apply IH; [lia |].
        destruct Hinv as [Ha | (seg & sl & _ & _ & _ & Hm' & _)].
        -- left. exact Ha.
        -- rewrite Hm' in Hm. discriminate.
    + simpl rev. rewrite <- app_assoc. simpl app. apply IH; [lia |].
      rewrite Hi'. apply scan_inv_char; done.
Qed.

(** [path.extname] returns nothing or a dot followed by plain characters. *)
Lemma extname_chars_shape (l : list ascii) : ext_shape (extname_chars l).
Proof.
  unfold extname_chars, ext_shape.
  pose proof (scan_back_result (rev l) [] scan_init (Z.of_nat (length l) - 1)) as Hres.
  rewrite length_rev, rev_involutive, app_nil_r in Hres.
  specialize (Hres eq_refl ltac:(left; done)).
  set (st := scan_back (rev l) (Z.of_nat (length l) - 1) scan_init) in *.
  destruct (no_extension st || (end_ st =? -1)%Z) eqn:Hno; [by left |].
  apply orb_false_elim in Hno as [Hno He].
  unfold no_extension in Hno.
  apply orb_false_elim in Hno as [Hno _]. apply orb_false_elim in Hno as [Hd _].
  apply Z.eqb_neq in Hd, He.
  destruct Hres as [? | [? | Hres]]; [done | done | by right].
Qed.

Lemma scan_char_plain (c : ascii) (i : Z) (st : scan) :
  plain c → scan_char c i st = scan_plain i st.
Proof.
  intros [_ Hdot]. unfold scan_char, scan_plain. rewrite Hdot.
  destruct st as [sd sp e ms pd]; simpl.
  destruct (e =? -1)%Z; simpl; destruct (sd =? -1)%Z; reflexivity.
Qed.

Lemma scan_plain_settled (i : Z) (st : scan) : settled st → scan_plain i st = st.
Proof.
  intros [He Hd]. unfold scan_plain. destruct st as [sd sp e ms pd]; simpl in *.
  apply Z.eqb_neq in He. rewrite He.
  destruct Hd as [-> | ->]; [reflexivity |]. destruct (sd =? -1)%Z; reflexivity.
Qed.

Lemma scan_plain_settles (i : Z) (st : scan) :
  (0 ≤ i)%Z → settled (scan_plain i st).
Proof.
  intros Hi. unfold scan_plain, settled. simpl. split.
  - destruct (end_ st =? -1)%Z eqn:He; [lia | by apply Z.eqb_neq].
  - destruct (startDot st =? -1)%Z eqn:Hd; [left; by apply Z.eqb_eq | by right].
Qed.

Lemma scan_back_settled (blk rest : list ascii) (j : Z) (st : scan) :
  Forall plain blk → settled st →
  scan_back (blk ++ rest) j st = scan_back rest (j - Z.of_nat (length blk)) st.
Proof.
  intros Hblk Hst. revert j. induction Hblk as [|c blk Hc _ IH]; intros j.
  - simpl. f_equal. lia.
  - simpl scan_back. rewrite (proj1 Hc), scan_char_plain, scan_plain_settled by done.
    rewrite IH. f_equal. simpl length. lia.
Qed.

Lemma scan_back_plain (blk rest : list ascii) (j : Z) (st : scan) :
  Forall plain blk → blk ≠ [] → (0 ≤ j)%Z →
  scan_back (blk ++ rest) j st
  = scan_back rest (j - Z.of_nat (length blk)) (scan_plain j st).
Proof.
  intros Hblk Hne Hj. destruct Hblk as [|c blk Hc Hblk]; [done |].
  simpl scan_back. rewrite (proj1 Hc), scan_char_plain by done.
  rewrite scan_back_settled by (try apply scan_plain_settles; done).
  f_equal. simpl length. lia.
Qed.

Lemma scan_plain_init (j : Z) :
  scan_plain j scan_init = mkScan (-1) 0 (j + 1) false 0.
Proof. reflexivity. Qed.

Lemma scan_dot_init (i : Z) :
  scan_char "."%char i scan_init = mkScan i 0 (i + 1) false 0.
Proof. reflexivity. Qed.

Lemma scan_dot_first (i e0 : Z) :
  e0 ≠ (-1)%Z →
  scan_char "."%char i (mkScan (-1) 0 e0 false 0) = mkScan i 0 e0 false 0.
Proof.
  intros He0. unfold scan_char. simpl.
  apply Z.eqb_neq in He0. rewrite He0. reflexivity.
Qed.

Lemma scan_plain_after_dot (j d e0 : Z) :
  d ≠ (-1)%Z → e0 ≠ (-1)%Z →
  scan_plain j (mkScan d 0 e0 false 0) = mkScan d 0 e0 false (-1).
Proof.
  intros Hd He0. unfold scan_plain. simpl.
  apply Z.eqb_neq in Hd, He0. rewrite Hd, He0. reflexivity.
Qed.

Lemma rev_nonempty (l : list ascii) : l ≠ [] → rev l ≠ [].
Proof.
  intros Hne E. apply (f_equal length) in E. rewrite length_rev in E.
  destruct l; done.
Qed.

Lemma slice_prefix (u e : list ascii) :
  slice (u ++ e) 0 (Z.of_nat (length u)) = u.
Proof.
  unfold slice. rewrite Nat2Z.id. simpl. rewrite Nat.sub_0_r.
  apply take_app_length.
Qed.

Lemma parse_name_chars_relative (l : list ascii) (c0 : ascii) :
  head l = Some c0 → is_slash c0 = false →
  parse_name_chars l = parse_relative l.
Proof.
  destruct l as [|c l']; [done |]. intros [= ->] Hc0.
  unfold parse_name_chars, parse_relative. rewrite Hc0. simpl drop.
  rewrite andb_false_r. reflexivity.
Qed.

(** The name part of a file name made of a plain, non-empty stem and an
    extension is the stem. *)
Lemma parse_name_chars_stem (u e : list ascii) :
  u ≠ [] → Forall plain u → ext_shape e → parse_name_chars (u ++ e) = u.
Proof.
  intros Hne Hu He.
  assert (Hrev : Forall plain (rev u)) by (by apply Forall_rev).
  assert (Hrne : rev u ≠ []) by (by apply rev_nonempty).
  assert (Hlen : (0 < Z.of_nat (length u))%Z) by (destruct u; [done | simpl; lia]).
  assert (Hrel : parse_name_chars (u ++ e) = parse_relative (u ++ e)).
  { destruct u as [|c0 u']; [done |]. apply Forall_cons in Hu as [[Hs _] _].
    by apply (parse_name_chars_relative _ c0). }
  rewrite Hrel. unfold parse_relative.
  destruct He as [-> | (t & -> & Ht)].
  - rewrite app_nil_r.
    pose proof (scan_back_plain (rev u) [] (Z.of_nat (length u) - 1) scan_init
                  Hrev Hrne ltac:(lia)) as Hscan.
    rewrite app_nil_r in Hscan. rewrite Hscan. simpl.
    replace (Z.of_nat (length u) - 1 + 1 =? -1)%Z with false
      by (symmetry; apply Z.eqb_neq; lia).
    replace (Z.of_nat (length u) - 1 + 1)%Z with (Z.of_nat (length u)) by lia.
    rewrite <- (app_nil_r u) at 1. apply slice_prefix.
  - rewrite rev_app_distr. simpl rev. rewrite <- !app_assoc. simpl app.
    rewrite length_app. simpl length.
    set (n := Z.of_nat (length u)) in *.
    assert (Hdotstate : ∃ e0, e0 ≠ (-1)%Z ∧
      scan_back (rev t ++ "."%char :: rev u)
        (Z.of_nat (length u + S (length t)) - 1) scan_init
      = mkScan n 0 e0 false (-1)).
    { assert (Hstem : ∀ e0, e0 ≠ (-1)%Z →
        scan_back ("."%char :: rev u) n (mkScan (-1) 0 e0 false 0)
        = mkScan n 0 e0 false (-1)).
      { intros e0 He0. simpl scan_back. rewrite scan_dot_first by done.
        pose proof (scan_back_plain (rev u) [] (n - 1) (mkScan n 0 e0 false 0)
                      Hrev Hrne ltac:(lia)) as Hscan.
        rewrite app_nil_r in Hscan. rewrite Hscan. simpl scan_back.
        apply scan_plain_after_dot; [lia | done]. }
      destruct (decide (t = [])) as [-> | Htne].
      - exists (n + 1)%Z. split; [lia |]. simpl app. simpl scan_back.
        replace (Z.of_nat (length u + 1) - 1)%Z with n by lia.
        rewrite scan_dot_init.
        pose proof (scan_back_plain (rev u) [] (n - 1) (mkScan n 0 (n + 1) false 0)
                      Hrev Hrne ltac:(lia)) as Hscan.
        rewrite app_nil_r in Hscan.
        replace (n - 1 + 1)%Z with n in Hscan by lia. rewrite Hscan.
        simpl scan_back. apply scan_plain_after_dot; lia.
      - exists (Z.of_nat (length u + S (length t))). split; [lia |].
        rewrite scan_back_plain
          by (try apply Forall_rev; try apply rev_nonempty; try done; lia).
        rewrite length_rev, scan_plain_init.
        replace (Z.of_nat (length u + S (length t)) - 1 - Z.of_nat (length t))%Z
          with n by lia.
        replace (Z.of_nat (length u + S (length t)) - 1 + 1)%Z
          with (Z.of_nat (length u + S (length t))) by lia.
        apply Hstem. lia. }
    destruct Hdotstate as (e0 & He0 & ->). simpl.
    replace (e0 =? -1)%Z with false by (symmetry; by apply Z.eqb_neq).
    unfold no_extension. simpl.
    replace (n =? -1)%Z with false by (symmetry; apply Z.eqb_neq; lia).
    simpl. apply slice_prefix.
Qed.

Lemma uuid_chars_plain (cs : list ascii) (pos : nat) :
  uuid_chars pos cs = true → Forall plain cs.
Proof.
  revert pos. induction cs as [|c cs IH]; intros pos Hcs; [constructor |].
  simpl in Hcs. apply andb_true_iff in Hcs as [Hc Hcs].
  constructor; [| by apply (IH (S pos))].
  assert (Hcases : c = "-"%char ∨ is_hex_lower c = true).
  { destruct (hyphen_position pos); [left; by apply Ascii.eqb_eq | by right]. }
  split.
  - destruct (is_slash c) eqn:Hs; [| reflexivity].
    apply Ascii.eqb_eq in Hs as ->. destruct Hcases as [? | ?]; discriminate.
  - destruct (is_dot c) eqn:Hd; [| reflexivity].
    apply Ascii.eqb_eq in Hd as ->. destruct Hcases as [? | ?]; discriminate.
Qed.

Lemma list_ascii_of_string_app (a b : string) :
  list_ascii_of_string (a +:+ b)
  = list_ascii_of_string a ++ list_ascii_of_string b.
Proof. induction a as [|c a IH]; simpl; [reflexivity | by rewrite IH]. Qed.

(** The name part of [uuid + ext], for a UUID and an extension that
    [path.extname] returned, is the UUID. *)
Lemma parse_name_uuid (u o : string) :
  is_uuid u = true → parse_name (u +:+ extname o) = u.
Proof.
  intros Hu. unfold parse_name, extname.
  rewrite list_ascii_of_string_app, list_ascii_of_string_of_list_ascii.
  rewrite parse_name_chars_stem.
  - apply string_of_list_ascii_of_string.
  - destruct u; [discriminate | done].
  - by apply (uuid_chars_plain _ 0).
  - apply extname_chars_shape.
Qed.

(** A UUID is not the name of a member of [Object.prototype]. *)
Lemma uuid_not_inherited (u : string) :
  is_uuid u = true → u ∉ Object_prototype.
Proof.
  intros Hu Hin. unfold Object_prototype in Hin.
  repeat (apply elem_of_cons in Hin as [-> | Hin]; [discriminate |]).
  by apply elem_of_nil in Hin.
Qed.

End PathFacts.

(** ** Maps filled from a list of entries *)

Section InsertAll.
Context {V : Type}.
Implicit Types (m : gmap string V) (kvs : list (string * V)).

Lemma insert_all_cons k v kvs m :
  insert_all ((k, v) :: kvs) m = insert_all kvs (<[k := v]> m).
Proof. reflexivity. Qed.

Lemma insert_all_lookup_notin kvs m k :
  k ∉ kvs.*1 → insert_all kvs m !! k = m !! k.
Proof.
  revert m. induction kvs as [|[k' v'] kvs IH]; intros m Hk; [reflexivity |].
  rewrite fmap_cons, not_elem_of_cons in Hk. destruct Hk as [Hne Hk].
  rewrite insert_all_cons, IH by done. by rewrite lookup_insert_ne.
Qed.

Lemma insert_all_lookup_in kvs m k v :
  NoDup kvs.*1 → (k, v) ∈ kvs → insert_all kvs m !! k = Some v.
Proof.
  revert m. induction kvs as [|[k' v'] kvs IH]; intros m Hnd Hin.
  - by apply elem_of_nil in Hin.
  - rewrite fmap_cons in Hnd. apply NoDup_cons in Hnd as [Hfresh Hnd].
    rewrite insert_all_cons. apply elem_of_cons in Hin as [[= -> ->] | Hin].
    + rewrite insert_all_lookup_notin by done. apply lookup_insert_eq.
    + by apply IH.
Qed.


End InsertAll.

(** ** [POST /upload] *)

Section UploadFacts.
Context `{Platform}.

Lemma kept_nil : kept [] = [].
Proof. reflexivity. Qed.

Lemma kept_cons (p : Part) (parts : list Part) :
  kept (p :: parts)
  = if decide (accepted p) then multer_part p :: kept parts else kept parts.
Proof. unfold kept. rewrite filter_cons. by case_decide. Qed.

Lemma kept_accepted (parts : list Part) :
  Forall accepted parts → kept parts = multer_part <$> parts.
Proof.
  induction 1 as [|p parts Hp _ IH]; [reflexivity |].
  by rewrite kept_cons, decide_True, IH.
Qed.

Lemma kept_length (parts : list Part) : (length (kept parts) ≤ length parts)%nat.
Proof. unfold kept. rewrite length_fmap. apply length_filter. Qed.

Lemma upload_array_run (parts : list Part) (s : Server) :
  upload_array parts s
  = (Normal (stored_files (uuid_calls s) (kept parts)),
     mkServer (fileMap s)
       (insert_all (blob_entries (uuid_calls s) (kept parts)) (uploads s))
       (snapshot s) (snapshot_writable s) (console s)
       (uuid_calls s + length (kept parts)) (clock_reads s)).
Proof.
  revert s. induction parts as [|p parts IH]; intros s.
  - simpl. unfold ret. rewrite Nat.add_0_r. destruct s; reflexivity.
  - rewrite kept_cons. cbn [upload_array]. unfold accepted.
    destruct (decide (Busboy.event_filename (part_originalname p) = EmptyString))
      as [Hempty | Hname].
    + rewrite bool_decide_eq_true_2, decide_False by auto. apply IH.
    + rewrite bool_decide_eq_false_2, decide_True by auto.
      unfold bind, storage_filename, bind, uuidv4_call, ret, modify.
      simpl. rewrite IH. simpl. do 2 f_equal. lia.
Qed.

Lemma forEach_uploaded_run (files : list MulterFile) (acc : list FileInfo)
    (s : Server) :
  forEach_uploaded files acc s
  = (Normal (acc ++ created (clock_reads s) files)%list,
     mkServer (insert_all (entries (created (clock_reads s) files)) (fileMap s))
       (uploads s) (snapshot s) (snapshot_writable s) (console s)
       (uuid_calls s) (clock_reads s + length files)).
Proof.
  revert acc s. induction files as [|f files IH]; intros acc s.
  - simpl. unfold ret. rewrite app_nil_r, Nat.add_0_r. destruct s; reflexivity.
  - simpl. unfold bind, Date_toISOString, modify. simpl. rewrite IH. simpl.
    rewrite <- app_assoc. simpl. do 2 f_equal. lia.
Qed.

Lemma post_upload_run (files : list MulterFile) (s : Server) :
  files ≠ [] →
  post_upload (Some files) s
  = (Normal (json 200 (UploadBody "Files uploaded successfully"
                         (created (clock_reads s) files))),
     after_save (registered files s)).
Proof.
  intros Hne. destruct files as [|f files]; [done |].
  unfold post_upload, try_catch, bind.
  rewrite forEach_uploaded_run, saveFileMap_run. reflexivity.
Qed.

Lemma post_upload_empty (s : Server) :
  post_upload None s = (Normal (json 400 (ErrorBody "No files uploaded")), s)
  ∧ post_upload (Some []) s = (Normal (json 400 (ErrorBody "No files uploaded")), s).
Proof. split; reflexivity. Qed.

Lemma stored_files_length (k : nat) (parts : list Part) :
  length (stored_files k parts) = length parts.
Proof. revert k. induction parts; intros k; simpl; [done | by rewrite IHparts]. Qed.

Lemma created_length (c : nat) (files : list MulterFile) :
  length (created c files) = length files.
Proof. revert c. induction files; intros c; simpl; [done | by rewrite IHfiles]. Qed.

Lemma upload_run (parts : list Part) (s : Server) :
  kept parts ≠ [] →
  handle (Upload (Some parts)) s
  = (Normal (json 200 (UploadBody "Files uploaded successfully"
                         (created (clock_reads s)
                            (stored_files (uuid_calls s) (kept parts))))),
     after_save (registered (stored_files (uuid_calls s) (kept parts))
                   (stored (kept parts) s))).
Proof.
  intros Hne. unfold handle, bind. rewrite upload_array_run.
  fold (stored (kept parts) s). rewrite post_upload_run.
  - reflexivity.
  - destruct (kept parts); [done | discriminate].
Qed.

(** An upload of which multer keeps no file. *)
Lemma upload_none_kept (parts : list Part) (s : Server) :
  kept parts = [] →
  handle (Upload (Some parts)) s
  = (Normal (json 400 (ErrorBody "No files uploaded")), s).
Proof.
  intros Hnone. unfold handle, bind. rewrite upload_array_run, Hnone.
  simpl. rewrite Nat.add_0_r. destruct s; reflexivity.
Qed.

End UploadFacts.

(** ** Records created by an upload *)

Section CreatedRecords.
Context `{Platform}.

Lemma entries_keys (rs : list FileInfo) : (entries rs).*1 = uid <$> rs.
Proof. unfold entries. rewrite <- list_fmap_compose. reflexivity. Qed.

Lemma entries_elem (rs : list FileInfo) (r : FileInfo) :
  r ∈ rs → (uid r, r) ∈ entries rs.
Proof. intros Hr. unfold entries. apply (list_elem_of_fmap_2 (λ r, (uid r, r))), Hr. Qed.

Lemma drawn_ids_le (P : string → Prop) (s : Server) (n m : nat) :
  (n ≤ m)%nat → Forall P (drawn_ids s m) → Forall P (drawn_ids s n).
Proof.
  intros Hle Hm. apply Forall_forall. intros u Hu. unfold drawn_ids in *.
  apply list_elem_of_fmap in Hu as (i & -> & Hi).
  apply (proj1 (Forall_forall _ _) Hm). apply list_elem_of_fmap_2.
  apply elem_of_seq in Hi. apply elem_of_seq. lia.
Qed.

Lemma created_uid (c k : nat) (parts : list Part) :
  Forall (λ u, is_uuid u = true) (uuidv4 <$> seq k (length parts)) →
  uid <$> created c (stored_files k parts) = uuidv4 <$> seq k (length parts).
Proof.
  revert c k. induction parts as [|p parts IH]; intros c k Hids; [reflexivity |].
  simpl in *. apply Forall_cons in Hids as [Hu Hids].
  rewrite PathFacts.parse_name_uuid by done. f_equal. by apply IH.
Qed.

Lemma created_well_named (c k : nat) (parts : list Part) :
  Forall (λ u, is_uuid u = true) (uuidv4 <$> seq k (length parts)) →
  Forall well_named (created c (stored_files k parts)).
Proof.
  revert c k. induction parts as [|p parts IH]; intros c k Hids; [constructor |].
  simpl in *. apply Forall_cons in Hids as [Hu Hids]. constructor; [| by apply IH].
  unfold well_named. simpl. by rewrite PathFacts.parse_name_uuid.
Qed.

Lemma created_stored_names (c k : nat) (parts : list Part) :
  storedFilename <$> created c (stored_files k parts) = (blob_entries k parts).*1.
Proof.
  revert c k. induction parts as [|p parts IH]; intros c k; [reflexivity |].
  simpl. f_equal. apply IH.
Qed.

Lemma created_name_part (c : nat) (files : list MulterFile) :
  uid <$> created c files
  = Path.parse_name <$> (storedFilename <$> created c files).
Proof.
  revert c. induction files as [|f files IH]; intros c; [reflexivity |].
  simpl. f_equal. apply IH.
Qed.

Lemma created_record_of (c k : nat) (parts : list Part)
    (blobs : gmap string string) :
  (∀ name bytes, (name, bytes) ∈ blob_entries k (multer_part <$> parts) →
     blobs !! name = Some bytes) →
  Forall2 (record_of blobs) parts
    (created c (stored_files k (multer_part <$> parts))).
Proof.
  revert c k. induction parts as [|p parts IH]; intros c k Hblobs; [constructor |].
  simpl in *. constructor.
  - repeat split. simpl. apply Hblobs. left.
  - apply IH. intros name bytes Hin. apply Hblobs. by right.
Qed.

(** The types of the records of an upload are header values. *)
Lemma created_types (c k : nat) (parts : list Part) :
  Forall (λ r, checkInvalidHeaderChar (mimeType r) = false)
    (created c (stored_files k (kept parts))).
Proof.
  unfold kept. generalize (filter accepted parts). clear parts. intros parts.
  revert c k. induction parts as [|p parts IH]; intros c k; [constructor |].
  constructor; [apply BusboyFacts.event_mimeType_is_header_value | apply IH].
Qed.

Lemma insert_all_coherent (rs : list FileInfo) (m : gmap string FileInfo) :
  coherent m → Forall well_named rs → coherent (insert_all (entries rs) m).
Proof.
  revert m. induction rs as [|r rs IH]; intros m Hm Hrs; [exact Hm |].
  apply Forall_cons in Hrs as [Hr Hrs]. simpl. apply IH; [| done].
  intros k r' Hlook. destruct (decide (uid r = k)) as [<- | Hne].
  - rewrite lookup_insert_eq in Hlook. injection Hlook as <-. done.
  - rewrite lookup_insert_ne in Hlook by done. by apply Hm.
Qed.

Lemma delete_coherent (k : string) (m : gmap string FileInfo) :
  coherent m → coherent (delete k m).
Proof.
  intros Hm k' r Hlook. apply lookup_delete_Some in Hlook as [_ Hlook]. by apply Hm.
Qed.

End CreatedRecords.

(** ** What a request leaves behind *)

Section Effects.
Context `{Platform}.

Lemma insert_all_lookup_entry {V : Type} (kvs : list (string * V))
    (m : gmap string V) (k : string) :
  k ∈ kvs.*1 → ∃ v, insert_all kvs m !! k = Some v ∧ (k, v) ∈ kvs.
Proof.
  revert m. induction kvs as [|[k' v'] kvs IH]; intros m Hk.
  - by apply elem_of_nil in Hk.
  - rewrite insert_all_cons. destruct (decide (k ∈ kvs.*1)) as [Hin | Hnotin].
    + destruct (IH (<[k' := v']> m) Hin) as (v & Hlook & Hv).
      exists v. split; [exact Hlook | by right].
    + rewrite insert_all_lookup_notin by done.
      rewrite fmap_cons in Hk. apply elem_of_cons in Hk as [-> | Hk]; [| done].
      exists v'. split; [apply lookup_insert_eq | by left].
Qed.

Lemma insert_all_lookup_is_Some {V : Type} (kvs : list (string * V))
    (m : gmap string V) (k : string) :
  k ∈ kvs.*1 → is_Some (insert_all kvs m !! k).
Proof.
  revert m. induction kvs as [|[k' v'] kvs IH]; intros m Hk.
  - by apply elem_of_nil in Hk.
  - rewrite insert_all_cons. destruct (decide (k ∈ kvs.*1)) as [Hin | Hnotin].
    + by apply IH.
    + rewrite insert_all_lookup_notin by done.
      rewrite fmap_cons in Hk. apply elem_of_cons in Hk as [-> | Hk]; [| done].
      rewrite lookup_insert_eq. eauto.
Qed.

(** The final state of a download: untouched, or with the error logged, or
    with the record removed and the snapshot saved. *)
Lemma download_cases (id : string) (s : Server) :
  (get_download id s).2 = s
  ∨ (get_download id s).2 = set_console (console s ++ ["Download error:"]) s
  ∨ (get_download id s).2 = after_save (set_fileMap (delete id (fileMap s)) s).
Proof.
  rewrite download_run. repeat case_match; auto.
Qed.

Lemma delete_cases (id : string) (s : Server) :
  (delete_file id s).2 = s
  ∨ (delete_file id s).2 = set_console (console s ++ ["Delete error:"]) s
  ∨ ∃ blobs, (delete_file id s).2
             = after_save (set_fileMap (delete id (fileMap s)) (set_uploads blobs s)).
Proof.
  destruct (fileMap s !! id) as [info|] eqn:Hinfo.
  - right. right. eexists. by rewrite (delete_known s id info).
  - destruct (decide (id ∈ Object_prototype)) as [Hin | Hnotin].
    + right. left. by rewrite delete_inherited.
    + left. by rewrite delete_unknown.
Qed.

Lemma upload_cases (parts : option (list Part)) (s : Server) :
  (handle (Upload parts) s).2 = s
  ∨ ∃ ps, parts = Some ps ∧ kept ps ≠ []
          ∧ (handle (Upload parts) s).2
            = after_save (registered (stored_files (uuid_calls s) (kept ps))
                            (stored (kept ps) s)).
Proof.
  destruct parts as [ps|]; [| by left].
  destruct (decide (kept ps = [])) as [Hnone | Hsome].
  - left. by rewrite upload_none_kept.
  - right. exists ps. split; [done |]. split; [done |].
    by rewrite upload_run.
Qed.

End Effects.

(** ** Restart *)

Section Restart.
Context `{Platform}.

Lemma startup_loaded (files : gmap string string) (snap : option string)
    (writable : bool) (m : gmap string FileInfo) :
  loaded snap writable = Some m ↔
  ∃ s', startup files snap writable = (Normal tt, s') ∧ fileMap s' = m.
Proof.
  unfold loaded. destruct snap as [data|].
  - destruct (JSON_parse data) as [m'|] eqn:Hparse.
    + rewrite (startup_well_formed _ _ _ m') by done. split.
      * intros [= <-]. eexists. split; reflexivity.
      * intros (s' & [= <-] & <-). reflexivity.
    + destruct writable.
      * rewrite startup_malformed_writable by done. split.
        -- intros [= <-]. eexists. split; reflexivity.
        -- intros (s' & [= <-] & <-). reflexivity.
      * rewrite startup_malformed_unwritable by done. split; [done |].
        intros (s' & [=] & _).
  - rewrite startup_absent. split.
    + intros [= <-]. eexists. split; reflexivity.
    + intros (s' & [= <-] & <-). reflexivity.
Qed.

Lemma reproduces_loaded (s : Server) :
  reproduces s ↔ loaded (snapshot s) (snapshot_writable s) = Some (fileMap s).
Proof. unfold reproduces. symmetry. apply startup_loaded. Qed.

Lemma reproduces_after_save (s : Server) :
  snapshot_writable s = true →
  JSON_parse (JSON_stringify (fileMap s)) = Some (fileMap s) →
  reproduces (after_save s).
Proof.
  intros Hw Hrt. apply reproduces_loaded. unfold after_save. rewrite Hw. simpl.
  by rewrite Hrt.
Qed.

End Restart.

(** ** The repairs and the removals, for identifiers that are not member
    names of [Object.prototype] *)

Section NotFound.
Context `{Platform}.

(** A download of an identifier whose record has lost its blob answers
    404, removes the record and saves the registry; the list that follows
    holds only records of other identifiers. *)
Lemma download_heals (s : Server) (id : string) (info : FileInfo) :
  fileMap s !! id = Some info →
  uploads s !! storedFilename info = None →
  ∃ s',
    handle (Download id) s
    = (Normal (json 404 (ErrorBody "File not found on server")), s')
    ∧ fileMap s' = delete id (fileMap s)
    ∧ (snapshot_writable s = true →
       snapshot s' = Some (JSON_stringify (delete id (fileMap s))))
    ∧ ∃ files,
        handle ListFiles s'
        = (Normal (mkResponse 200 [("Content-Type", HString "application/json")]
                     (FilesBody files)), s')
        ∧ Forall (λ r, ∃ k, k ≠ id ∧ fileMap s !! k = Some r) files.
Proof.
  intros Hinfo Hblob. eexists.
  split; [by apply (download_missing_blob s id info) |].
  rewrite fileMap_after_save. split; [reflexivity |]. split.
  - intros Hw. unfold after_save. simpl. rewrite Hw. reflexivity.
  - eexists. split; [reflexivity |].
    rewrite fileMap_after_save. simpl. unfold Object_values.
    apply Forall_forall. intros r Hr.
    apply list_elem_of_fmap in Hr as ([k r'] & -> & Hin).
    apply elem_of_map_to_list, lookup_delete_Some in Hin as [Hne Hlook].
    exists k. split; [by intros -> | exact Hlook].
Qed.

(** A download of an identifier that has no record and is not inherited
    answers 404 and changes nothing. *)
Lemma download_unknown_is_404 (s : Server) (id : string) :
  fileMap s !! id = None → id ∉ Object_prototype →
  handle (Download id) s = (Normal (json 404 (ErrorBody "File not found")), s).
Proof. apply download_unknown. Qed.

(** A delete of an identifier that has a record answers 200 and removes
    the blob, if it is there, and the record; a second delete of it
    answers 404. *)
Lemma delete_then_delete (s : Server) (id : string) (info : FileInfo) :
  fileMap s !! id = Some info → id ∉ Object_prototype →
  ∃ s',
    handle (Delete id) s
    = (Normal (json 200 (MessageBody "File deleted successfully")), s')
    ∧ fileMap s' = delete id (fileMap s)
    ∧ uploads s' = delete (storedFilename info) (uploads s)
    ∧ handle (Delete id) s'
      = (Normal (json 404 (ErrorBody "File not found")), s').
Proof.
  intros Hinfo Hproto. eexists.
  split; [by apply (delete_known s id info) |].
  rewrite fileMap_after_save, uploads_after_save.
  split; [reflexivity |]. split; [reflexivity |].
  apply delete_unknown; [| exact Hproto].
  rewrite fileMap_after_save. simpl. apply lookup_delete_eq.
Qed.

(** A delete of an identifier that has no record and is not inherited
    answers 404 and changes nothing. *)
Lemma delete_unknown_is_404 (s : Server) (id : string) :
  fileMap s !! id = None → id ∉ Object_prototype →
  handle (Delete id) s = (Normal (json 404 (ErrorBody "File not found")), s).
Proof. apply delete_unknown. Qed.

(** The identifiers of uploaded files are never inherited names: for them
    the two routes answer as the lemmas above say. *)
Lemma uploaded_id_not_inherited (u : string) :
  is_uuid u = true → u ∉ Object_prototype.
Proof. apply PathFacts.uuid_not_inherited. Qed.

End NotFound.

(** ** The codec reads back what it prints *)

Module CodecFacts.
Import Codec CodecSpec.
Local Open Scope nat_scope.

(** *** Strings *)

Lemma parse_chars_escape_char (c : ascii) (text body rest : string) :
  parse_chars text = Some (body, rest) →
  parse_chars (escape_char c text) = Some (String c body, rest).
Proof.
  intros Htext.
  destruct c as [[] [] [] [] [] [] [] []]; simpl; rewrite Htext; reflexivity.
Qed.

Lemma parse_chars_escape (s rest : string) :
  parse_chars (escape s (String quote rest)) = Some (s, rest).
Proof.
  induction s as [|c s IH]; [reflexivity |].
  simpl escape. by apply parse_chars_escape_char.
Qed.

(** *** Numbers *)

Lemma of_uint_acc_value (d : Decimal.uint) (p : positive) :
  N.pos (Pos.of_uint_acc d p) = uint_value d (N.pos p).
Proof.
  revert p. induction d; intros p; simpl; try reflexivity;
    rewrite IHd; f_equal; lia.
Qed.

Lemma of_uint_value (d : Decimal.uint) : N.of_uint d = uint_value d 0.
Proof.
  unfold N.of_uint. induction d; simpl; try reflexivity; try exact IHd;
    apply of_uint_acc_value.
Qed.

Lemma parse_digits_stop (s : string) (acc : N) :
  starts_with_digit s = false → parse_digits s acc = (acc, s).
Proof. destruct s as [|c s]; simpl; [done |]. by intros ->. Qed.

Lemma parse_digits_uint (d : Decimal.uint) (rest : string) (acc : N) :
  starts_with_digit rest = false →
  parse_digits (NilEmpty.string_of_uint d +:+ rest) acc = (uint_value d acc, rest).
Proof.
  intros Hrest. revert acc.
  induction d; intros acc; simpl; try apply IHd. by apply parse_digits_stop.
Qed.

Lemma unorm_normal (d : Decimal.uint) : normal (Decimal.unorm d).
Proof. induction d; simpl; done. Qed.

Lemma to_uint_normal (n : N) : normal (N.to_uint n).
Proof. rewrite <- (DecimalN.Unsigned.of_to n) at 1. rewrite DecimalN.Unsigned.to_of. apply unorm_normal. Qed.

Lemma parse_number_print (n : N) (rest : string) :
  starts_with_digit rest = false →
  parse_number (print_number n +:+ rest) = Some (n, rest).
Proof.
  intros Hrest. unfold print_number.
  pose proof (to_uint_normal n) as Hnorm.
  pose proof (parse_digits_uint (N.to_uint n) rest 0 Hrest) as Hdigits.
  rewrite <- of_uint_value, DecimalN.Unsigned.of_to in Hdigits.
  destruct (N.to_uint n) as [|d|d|d|d|d|d|d|d|d|d]; simpl in Hnorm; try done;
    try (unfold parse_number; simpl in Hdigits |- *; f_equal; exact Hdigits).
  subst d. change (parse_number (String "0" rest) = Some (n, rest)).
  change (parse_digits rest 0 = (n, rest)) in Hdigits.
  rewrite parse_digits_stop in Hdigits by done. injection Hdigits as <-.
  unfold parse_number. by rewrite Hrest.
Qed.

(** The first character of a printed number is a digit. *)
Lemma print_number_head (n : N) (rest : string) :
  ∃ c text, print_number n +:+ rest = String c text ∧ is_digit c = true.
Proof.
  unfold print_number. pose proof (to_uint_normal n) as Hnorm.
  destruct (N.to_uint n); simpl in *; try done; eauto.
Qed.

(** *** Values *)

Lemma skip_ws_stop (c : ascii) (s : string) :
  is_ws c = false → skip_ws (String c s) = String c s.
Proof. intros Hc. simpl. by rewrite Hc. Qed.

Lemma skip_ws_spaces (n : nat) (s : string) : skip_ws (spaces n s) = skip_ws s.
Proof. induction n as [|n IH]; [reflexivity | exact IH]. Qed.

Lemma skip_ws_line (n : nat) (s : string) :
  skip_ws (String newline (spaces n s)) = skip_ws s.
Proof. simpl. apply skip_ws_spaces. Qed.

Lemma parse_value_ws (fuel : nat) (c : ascii) (s : string) :
  is_ws c = true → parse_value fuel (String c s) = parse_value fuel s.
Proof. intros Hc. destruct fuel; [reflexivity |]. simpl. by rewrite Hc. Qed.

Lemma digit_is_no_token (c : ascii) :
  is_digit c = true →
  is_ws c = false ∧ Ascii.eqb c quote = false ∧ Ascii.eqb c "{" = false.
Proof. destruct c as [[] [] [] [] [] [] [] []]; simpl; intros; done. Qed.

#[local] Arguments parse_number : simpl never.

Lemma skip_ws_print_string (k text : string) :
  skip_ws (print_string k text) = print_string k text.
Proof. reflexivity. Qed.

Lemma parse_value_object (fuel : nat) (text body rest : string)
    (ms : json_members) :
  skip_ws text = String quote body →
  parse_members fuel text = Some (ms, rest) →
  parse_value (S fuel) (String "{" text) = Some (JObject ms, rest).
Proof. intros Hhead Hms. simpl. rewrite Hhead. simpl. by rewrite Hms. Qed.

Lemma parse_members_key (fuel n : nat) (k text : string) :
  parse_members (S fuel)
    (String newline (spaces n (print_string k (String ":" (String " " text)))))
  = match parse_value fuel text with
    | Some (v, s4) =>
        match skip_ws s4 with
        | String "," s5 =>
            match parse_members fuel s5 with
            | Some (ms, rest) => Some (JCons k v ms, rest)
            | None => None
            end
        | String "}" rest => Some (JCons k v JNil, rest)
        | _ => None
        end
    | None => None
    end.
Proof.
  cbn [parse_members]. rewrite skip_ws_line, skip_ws_print_string.
  unfold print_string. simpl. rewrite parse_chars_escape. simpl.
  rewrite parse_value_ws by reflexivity. reflexivity.
Qed.

Lemma skip_ws_members (indent : nat) (ms : json_members) (rest : string) :
  ms ≠ JNil →
  ∃ body, skip_ws (print_members indent ms rest) = String quote body.
Proof.
  destruct ms as [|k v ms']; [done |]. intros _. eexists.
  cbn [print_members]. rewrite skip_ws_line. reflexivity.
Qed.

Lemma parse_value_print :
  (∀ v indent rest fuel,
     value_fuel v ≤ fuel → may_follow v rest →
     parse_value fuel (print_value indent v rest) = Some (v, rest))
  ∧ (∀ ms indent rest fuel n,
       ms ≠ JNil → members_fuel ms ≤ fuel →
       parse_members fuel
         (print_members indent ms (String newline (spaces n (String "}" rest))))
       = Some (ms, rest)).
Proof.
  apply json_both.
  - (* a string *)
    intros s indent rest [|fuel] Hfuel _; [simpl in Hfuel; lia |].
    simpl. by rewrite parse_chars_escape.
  - (* a number *)
    intros n indent rest [|fuel] Hfuel Hrest; [simpl in Hfuel; lia |].
    simpl print_value.
    destruct (print_number_head n rest) as (c & text & Hhead & Hc).
    destruct (digit_is_no_token c Hc) as (Hws & Hq & Hb).
    pose proof (parse_number_print n rest Hrest) as Hnum. rewrite Hhead in *.
    simpl. rewrite Hws, Hq, Hb. by rewrite Hnum.
  - (* an object *)
    intros ms IH indent rest [|fuel] Hfuel _; [simpl in Hfuel; lia |].
    destruct ms as [|k v ms']; [reflexivity |].
    cbn [print_value].
    destruct (skip_ws_members (S indent) (JCons k v ms')
                (String newline (spaces (2 * indent) (String "}" rest))))
      as [body Hbody]; [done |].
    apply (parse_value_object _ _ body); [exact Hbody |].
    apply IH; [done | simpl in Hfuel |- *; lia].
  - (* no member *)
    intros indent rest fuel n Hne. done.
  - (* a member and the ones after it *)
    intros k v IHv ms' IHms indent rest [|fuel] n _ Hfuel; [simpl in Hfuel; lia |].
    cbn [print_members]. rewrite parse_members_key.
    simpl in Hfuel. destruct ms' as [|k' v' ms''].
    + rewrite IHv; [| lia | by destruct v].
      rewrite skip_ws_line. reflexivity.
    + rewrite IHv; [| lia | by destruct v].
      rewrite skip_ws_stop by reflexivity.
      rewrite IHms; [reflexivity | done | simpl in *; lia].
Qed.

(** *** The fuel of [parse_text] suffices *)

Lemma length_spaces (n : nat) (s : string) :
  String.length (spaces n s) = n + String.length s.
Proof. induction n as [|n IH]; simpl; [done | by rewrite IH]. Qed.

Lemma length_escape_char (c : ascii) (s : string) :
  String.length s < String.length (escape_char c s).
Proof. destruct c as [[] [] [] [] [] [] [] []]; simpl; lia. Qed.

Lemma length_escape (s rest : string) :
  String.length rest ≤ String.length (escape s rest).
Proof.
  induction s as [|c s IH]; simpl; [done |].
  pose proof (length_escape_char c (escape s rest)). lia.
Qed.

Lemma length_print_string (s rest : string) :
  String.length rest < String.length (print_string s rest).
Proof.
  unfold print_string. simpl.
  pose proof (length_escape s (String quote rest)) as Hlen. simpl in Hlen. lia.
Qed.

Lemma length_append (a b : string) :
  String.length (a +:+ b) = String.length a + String.length b.
Proof. induction a as [|c a IH]; simpl; [done | by rewrite IH]. Qed.

Lemma length_print_number (n : N) (rest : string) :
  String.length rest < String.length (print_number n +:+ rest).
Proof.
  destruct (print_number_head n EmptyString) as (c & text & Hhead & _).
  rewrite length_append. destruct (print_number n); [discriminate | simpl; lia].
Qed.

Lemma length_print :
  (∀ v indent rest,
     value_fuel v + String.length rest ≤ String.length (print_value indent v rest))
  ∧ (∀ ms indent rest,
       members_fuel ms + String.length rest
       ≤ String.length (print_members indent ms rest)).
Proof.
  apply json_both.
  - intros s indent rest. simpl value_fuel. simpl print_value.
    pose proof (length_print_string s rest). lia.
  - intros n indent rest. simpl value_fuel. simpl print_value.
    pose proof (length_print_number n rest). lia.
  - intros ms IH indent rest. destruct ms as [|k v ms']; [simpl; lia |].
    cbn [print_value value_fuel]. cbn [String.length].
    specialize (IH (S indent)
                  (String newline (spaces (2 * indent) (String "}" rest)))).
    cbn [String.length] in IH. rewrite length_spaces in IH.
    cbn [String.length] in IH. lia.
  - intros indent rest. simpl. lia.
  - intros k v IHv ms' IHms indent rest. cbn [print_members members_fuel].
    cbn [String.length]. rewrite length_spaces.
    pose proof (length_print_string k
      (String ":" (String " " (print_value indent v
         match ms' with
         | JNil => rest
         | JCons _ _ _ => String "," (print_members indent ms' rest)
         end)))) as Hkey.
    cbn [String.length] in Hkey.
    specialize (IHv indent
      match ms' with
      | JNil => rest
      | JCons _ _ _ => String "," (print_members indent ms' rest)
      end).
    specialize (IHms indent rest).
    destruct ms' as [|k' v' ms'']; cbn [String.length members_fuel] in *; lia.
Qed.

(** *** Records and registries *)

Lemma decode_encode_info (r : FileInfo) : decode_info (encode_info r) = Some r.
Proof. destruct r. reflexivity. Qed.

Lemma decode_encode_entries (l : list (string * FileInfo)) :
  decode_entries (encode_entries l) = Some l.
Proof.
  induction l as [|[k r] l IH]; [reflexivity |].
  cbn [encode_entries decode_entries]. by rewrite decode_encode_info, IH.
Qed.

Lemma decode_encode_map (m : gmap string FileInfo) :
  decode_map (encode_map m) = Some m.
Proof.
  unfold decode_map, encode_map. rewrite decode_encode_entries. f_equal.
  rewrite <- (list_to_map_to_list m) at 2.
  apply list_to_map_proper.
  - rewrite fmap_reverse, reverse_Permutation. apply NoDup_fst_map_to_list.
  - apply reverse_Permutation.
Qed.

(** The text [stringify] writes for a registry parses to that registry. *)
Theorem parse_stringify (m : gmap string FileInfo) : parse (stringify m) = Some m.
Proof.
  unfold parse, parse_text, stringify.
  destruct parse_value_print as [Hvalue _].
  rewrite Hvalue.
  - simpl. apply decode_encode_map.
  - destruct length_print as [Hlen _].
    specialize (Hlen (encode_map m) 0 EmptyString).
    change (String.length EmptyString) with 0 in Hlen. lia.
  - exact I.
Qed.

(** On this codec, a restart after a successful [saveFileMap] reproduces
    the registry, whatever it holds. *)
Corollary restart_after_save (s : Server) :
  snapshot_writable s = true → reproduces (after_save s).
Proof. intros Hw. apply reproduces_after_save; [exact Hw | apply parse_stringify]. Qed.

End CodecFacts.

(** * The claims of the specification *)

Section Claims.
Context `{Platform}.

(** C1, as amended.  When the snapshot cannot be written, an upload of
    which multer keeps one or more files (identified by the UUIDs the
    generator returns) still answers 200 with the created records, one for
    each file kept; the records are registered in memory under the
    generated identifiers; the failure of the write is logged on the
    console and reaches neither the response nor the snapshot file. *)
Theorem upload_persist_failure_is_only_logged (s : Server) (parts : list Part) :
  kept parts ≠ [] →
  Forall (λ u, is_uuid u = true) (drawn_ids s (length (kept parts))) →
  snapshot_writable s = false →
  ∃ files s',
    handle (Upload (Some parts)) s
    = (Normal (json 200 (UploadBody "Files uploaded successfully" files)), s')
    ∧ uid <$> files = drawn_ids s (length (kept parts))
    ∧ fileMap s' = insert_all (entries files) (fileMap s)
    ∧ (∀ r, r ∈ files → is_Some (fileMap s' !! uid r))
    ∧ console s' = (console s ++ ["Error saving fileMap:"])%list
    ∧ snapshot s' = snapshot s.
Proof.
  intros Hne Hids Hw.
  exists (created (clock_reads s) (stored_files (uuid_calls s) (kept parts))).
  eexists. split; [by apply upload_run |].
  split; [by apply created_uid |].
  unfold after_save. simpl. rewrite Hw. simpl.
  split; [reflexivity |]. split; [| done].
  intros r Hr. apply insert_all_lookup_is_Some.
  rewrite entries_keys. by apply list_elem_of_fmap_2.
Qed.

(** C2, at an identifier the registry does not hold but [Object.prototype]
    does (["constructor"], ["toString"], ["__proto__"], ...): the read
    [fileMap[uid]] is truthy, [path.join] throws on its missing
    [storedFilename], and the download answers 500 instead of 404. *)
Theorem download_of_prototype_member_is_500 (s : Server) (id : string) :
  id ∈ Object_prototype →
  fileMap s !! id = None →
  handle (Download id) s
  = (Normal (json 500 (ErrorBody "File download failed")),
     set_console (console s ++ ["Download error:"]) s).
Proof. intros Hin Hnone. by apply download_inherited. Qed.

(** C3, at an identifier the registry does not hold but [Object.prototype]
    does: the delete answers 500 instead of 404 (the registry and the blob
    store stay as they are). *)
Theorem delete_of_prototype_member_is_500 (s : Server) (id : string) :
  id ∈ Object_prototype →
  fileMap s !! id = None →
  handle (Delete id) s
  = (Normal (json 500 (ErrorBody "File deletion failed")),
     set_console (console s ++ ["Delete error:"]) s).
Proof. intros Hin Hnone. by apply delete_inherited. Qed.

(** C4, at a malformed snapshot that cannot be rewritten: the
    [writeFileSync] of the [catch] block throws, nothing catches it, and
    the load ends in an exception at module level. *)
Theorem malformed_unwritable_snapshot_is_fatal (files : gmap string string)
    (data : string) :
  JSON_parse data = None →
  ∃ s', startup files (Some data) false = (Throw "EACCES", s')
        ∧ console s' = ["Error loading fileMap:"].
Proof.
  intros Hparse. eexists. split; [by apply startup_malformed_unwritable |].
  reflexivity.
Qed.


(** C6.  An upload with no file, be it a multipart request without files
    or a request that is not multipart, answers 400 with an error body and
    leaves the whole state, registry and blob store included, as it was. *)
Theorem upload_without_files_is_bad_request (s : Server) :
  handle (Upload (Some [])) s
  = (Normal (mkResponse 400 [] (ErrorBody "No files uploaded")), s)
  ∧ handle (Upload None) s
    = (Normal (mkResponse 400 [] (ErrorBody "No files uploaded")), s).
Proof. split; reflexivity. Qed.


(** C8.  Loading the snapshot that a successful [saveFileMap] wrote yields
    the registry that was saved, whenever [JSON.parse] reads back what
    [JSON.stringify] printed for it; hence, on a writable snapshot, a
    process whose restart reproduces its registry still has that property
    after any request. *)
Theorem restart_reproduces_saved_registry (s : Server) :
  snapshot_writable s = true →
  (JSON_parse (JSON_stringify (fileMap s)) = Some (fileMap s) →
   ∃ s', startup (uploads (saveFileMap s).2) (snapshot (saveFileMap s).2)
                 (snapshot_writable (saveFileMap s).2) = (Normal tt, s')
         ∧ fileMap s' = fileMap s)
  ∧ ∀ req,
      reproduces s →
      JSON_parse (JSON_stringify (fileMap (handle req s).2))
      = Some (fileMap (handle req s).2) →
      reproduces (handle req s).2.
Proof.
  intros Hw. split.
  - intros Hrt. rewrite saveFileMap_run.
    destruct (reproduces_after_save s Hw Hrt) as (s' & Hs' & Hm).
    exists s'. split; [exact Hs' |]. by rewrite Hm, fileMap_after_save.
  - intros req Hs.
    assert (Hsaved : ∀ x, snapshot_writable x = true →
              (handle req s).2 = after_save x →
              JSON_parse (JSON_stringify (fileMap (handle req s).2))
              = Some (fileMap (handle req s).2) →
              reproduces (handle req s).2).
    { intros x Hx -> Hrt. rewrite fileMap_after_save in Hrt.
      by apply reproduces_after_save. }
    assert (Hlogged : ∀ tag, reproduces (set_console (console s ++ [tag]) s)).
    { intros tag. apply reproduces_loaded. apply reproduces_loaded in Hs. exact Hs. }
    destruct req as [parts | | id | id].
    + destruct (upload_cases parts s) as [-> | (ps & _ & _ & Hrun)]; [done |].
      by refine (Hsaved _ _ Hrun).
    + intros _. exact Hs.
    + change (handle (Download id) s) with (get_download id s).
      destruct (download_cases id s) as [-> | [-> | Hrun]]; [done | done |].
      by refine (Hsaved _ _ Hrun).
    + change (handle (Delete id) s) with (delete_file id s).
      destruct (delete_cases id s) as [-> | [-> | (blobs & Hrun)]]; [done | done |].
      by refine (Hsaved _ _ Hrun).
Qed.

(** C9.  When the identifiers generated for an upload are UUIDs, every
    record of its answer has [storedFilename] equal to [uid] followed by
    the extension of the original name, and the registry holds under that
    [uid] a record with this [uid] and such a name; and a registry all of
    whose entries are keyed by their [uid] and named in that way stays so
    after any request (upload, list, download with its removal of a record
    without blob, delete). *)
Theorem registry_coherence_is_invariant (req : Request) (s : Server) :
  (∀ parts, req = Upload (Some parts) →
     Forall (λ u, is_uuid u = true) (drawn_ids s (length parts))) →
  (∀ message files,
     (handle req s).1 = Normal (json 200 (UploadBody message files)) →
     Forall well_named files
     ∧ ∀ r, r ∈ files →
         ∃ r', fileMap (handle req s).2 !! uid r = Some r'
               ∧ uid r' = uid r ∧ well_named r')
  ∧ (coherent (fileMap s) → coherent (fileMap (handle req s).2)).
Proof.
  intros Hids. destruct req as [[ps|] | | id | id].
  - destruct (decide (kept ps = [])) as [Hnone | Hne].
    { rewrite upload_none_kept by done.
      split; [intros message files Hresp; discriminate Hresp | done]. }
    specialize (Hids ps eq_refl).
    apply (drawn_ids_le _ s (length (kept ps))) in Hids; [| apply kept_length].
    rewrite upload_run by done. cbn [fst snd].
    rewrite fileMap_after_save. cbn [registered stored fileMap clock_reads].
    pose proof (created_well_named (clock_reads s) (uuid_calls s) (kept ps) Hids)
      as Hnamed.
    split.
    + intros message files [= _ <-]. split; [exact Hnamed |].
      intros r Hr.
      destruct (insert_all_lookup_entry
                  (entries (created (clock_reads s)
                              (stored_files (uuid_calls s) (kept ps))))
                  (fileMap s) (uid r)) as (r' & Hlook & Hin).
      { rewrite entries_keys. by apply list_elem_of_fmap_2. }
      exists r'. split; [exact Hlook |].
      apply list_elem_of_fmap in Hin as (r0 & [= Hk ->] & Hr0).
      split; [done |]. by apply (proj1 (Forall_forall _ _) Hnamed).
    + intros Hs. by apply insert_all_coherent.
  - split; [intros message files Hresp; discriminate Hresp | done].
  - split; [intros message files Hresp; discriminate Hresp | done].
  - change (handle (Download id) s) with (get_download id s). split.
    + intros message files Hresp. exfalso.
      rewrite download_run in Hresp. repeat case_match; discriminate.
    + intros Hs. destruct (download_cases id s) as [-> | [-> | ->]]; [done | done |].
      rewrite fileMap_after_save. by apply delete_coherent.
  - change (handle (Delete id) s) with (delete_file id s). split.
    + intros message files Hresp. exfalso.
      destruct (fileMap s !! id) as [info|] eqn:Hinfo.
      * rewrite (delete_known s id info) in Hresp by done. discriminate.
      * destruct (decide (id ∈ Object_prototype)).
        -- rewrite delete_inherited in Hresp by done. discriminate.
        -- rewrite delete_unknown in Hresp by done. discriminate.
    + intros Hs. destruct (delete_cases id s) as [-> | [-> | (blobs & ->)]]; [done | done |].
      rewrite fileMap_after_save. by apply delete_coherent.
Qed.

(** C10.  The list request answers 200 with the records of the registry,
    one for each key and no other, and leaves the whole state (registry,
    snapshot, blob store) as it was. *)
Theorem list_is_read_only (s : Server) :
  ∃ keys files,
    handle ListFiles s
    = (Normal (mkResponse 200 [("Content-Type", HString "application/json")]
                 (FilesBody files)), s)
    ∧ NoDup keys
    ∧ (∀ k, k ∈ keys ↔ is_Some (fileMap s !! k))
    ∧ Forall2 (λ k r, fileMap s !! k = Some r) keys files.
Proof.
  exists (map_to_list (fileMap s)).*1, (Object_values (fileMap s)).
  split; [reflexivity |]. split; [apply NoDup_fst_map_to_list |].
  split; [| apply Object_values_keys].
  intros k. rewrite list_elem_of_fmap. split.
  - intros ([k' r] & -> & Hin). apply elem_of_map_to_list in Hin. eauto.
  - intros [r Hr]. exists (k, r). split; [done |]. by apply elem_of_map_to_list.
Qed.

End Claims.

(** * Concrete runs

    The claims on the platform of [Module Codec]: a server that starts on
    an empty directory, one whose snapshot cannot be written, and one that
    holds a report. *)

Module Runs.
Import Codec Sample.

(** C1 as stated fails: on a snapshot that cannot be written the upload of
    one file logs the failure of [saveFileMap] and answers the plain
    success, 200 with the created record; nothing was written. *)
Lemma upload_on_read_only_snapshot_answers_200 :
  snapshot_writable read_only_server = false
  ∧ handle (Upload (Some [report])) read_only_server
    = (Normal (mkResponse 200 []
                 (UploadBody "Files uploaded successfully" [report_record])),
       mkServer {[ report_id := report_record ]}
         {[ storedFilename report_record := part_content report ]}
         None false ["Error saving fileMap:"] 1 1).
Proof. split; [reflexivity | vm_compute; reflexivity]. Qed.

(** The amended C1 on the read-only server, for two files. *)
Lemma upload_persist_failure_witness :
  snapshot_writable read_only_server = false
  ∧ ∃ files s',
      handle (Upload (Some [report; notes])) read_only_server
      = (Normal (json 200 (UploadBody "Files uploaded successfully" files)), s')
      ∧ uid <$> files = [uuid_of_nat 0; uuid_of_nat 1]
      ∧ console s' = ["Error saving fileMap:"]
      ∧ snapshot s' = None.
Proof.
  split; [reflexivity |].
  destruct (upload_persist_failure_is_only_logged read_only_server [report; notes])
    as (files & s' & Hrun & Huid & _ & _ & Hlog & Hsnap).
  - vm_compute. discriminate.
  - vm_compute. repeat constructor.
  - reflexivity.
  - exists files, s'. split; [exact Hrun |]. split; [exact Huid |].
    split; [exact Hlog | exact Hsnap].
Defined.

(** C2 at [GET /download/constructor], on the server that holds a report. *)
Lemma download_constructor_witness :
  "constructor" ∈ Object_prototype
  ∧ fileMap serving !! "constructor" = None
  ∧ handle (Download "constructor") serving
    = (Normal (json 500 (ErrorBody "File download failed")),
       set_console ["Download error:"] serving).
Proof.
  split; [constructor |]. split; [reflexivity |].
  apply (download_of_prototype_member_is_500 serving "constructor");
    [constructor | reflexivity].
Defined.

(** C3 at [DELETE /files/constructor], on the same server. *)
Lemma delete_constructor_witness :
  "constructor" ∈ Object_prototype
  ∧ fileMap serving !! "constructor" = None
  ∧ handle (Delete "constructor") serving
    = (Normal (json 500 (ErrorBody "File deletion failed")),
       set_console ["Delete error:"] serving).
Proof.
  split; [constructor |]. split; [reflexivity |].
  apply (delete_of_prototype_member_is_500 serving "constructor");
    [constructor | reflexivity].
Defined.

(** C4 at a snapshot cut after its first character, on a file that
    cannot be written. *)
Lemma truncated_snapshot_witness :
  JSON_parse "{" = None
  ∧ ∃ s', startup ∅ (Some "{") false = (Throw "EACCES", s')
          ∧ console s' = ["Error loading fileMap:"].
Proof.
  split; [reflexivity |].
  apply (malformed_unwritable_snapshot_is_fatal ∅ "{"). reflexivity.
Defined.



(** C8 on the server that holds a report: after [saveFileMap], and after
    the delete of the report. *)
Lemma restart_witness :
  snapshot_writable serving = true
  ∧ JSON_parse (JSON_stringify (fileMap serving)) = Some (fileMap serving)
  ∧ (∃ s', startup (uploads (saveFileMap serving).2) (snapshot (saveFileMap serving).2)
             (snapshot_writable (saveFileMap serving).2) = (Normal tt, s')
           ∧ fileMap s' = fileMap serving)
  ∧ reproduces (handle (Delete report_id) serving).2.
Proof.
  split; [reflexivity |].
  assert (Hrt : JSON_parse (JSON_stringify (fileMap serving)) = Some (fileMap serving))
    by (vm_compute; reflexivity).
  split; [exact Hrt |].
  destruct (restart_reproduces_saved_registry serving eq_refl) as [Hload Hreq].
  split; [exact (Hload Hrt) |].
  apply Hreq.
  - apply reproduces_loaded. vm_compute. reflexivity.
  - vm_compute. reflexivity.
Defined.

(** C9 for the upload of two files on the fresh server. *)
Lemma coherence_witness :
  coherent (fileMap fresh_server)
  ∧ coherent (fileMap (handle (Upload (Some [report; notes])) fresh_server).2).
Proof.
  assert (Hempty : coherent (fileMap fresh_server)).
  { intros k r Hlook. change (fileMap fresh_server) with (∅ : gmap string FileInfo) in Hlook.
    rewrite lookup_empty in Hlook. discriminate. }
  split; [exact Hempty |].
  apply (registry_coherence_is_invariant (Upload (Some [report; notes])) fresh_server);
    [| exact Hempty].
  intros parts [= <-]. vm_compute. repeat constructor.
Defined.

End Runs.

(** * Further properties of the server *)

Ltac in_list :=
  repeat first [apply list_elem_of_here | apply list_elem_of_further].

Section Answers.
Context `{Platform}.

(** Every request is answered, and regularly. *)
Lemma handle_regular (req : Request) (s : Server) :
  ∃ resp, (handle req s).1 = Normal resp ∧ regular_answer resp.
Proof.
  assert (Herr : ∀ code text, code ∈ [400; 404; 500] → text ≠ EmptyString →
            regular_answer (json code (ErrorBody text))).
  { intros code text Hcode Htext. right. split; [exact Hcode |]. by exists text. }
  destruct req as [[ps|] | | id | id].
  - destruct (decide (kept ps = [])) as [Hnone | Hne].
    + rewrite upload_none_kept by done.
      eexists. split; [reflexivity |]. apply Herr; [in_list | done].
    + rewrite upload_run by done. eexists. split; [reflexivity |].
      left. split; [reflexivity | done].
  - eexists. split; [reflexivity |]. apply Herr; [in_list | done].
  - eexists. split; [reflexivity |]. left. split; [reflexivity | done].
  - change (handle (Download id) s) with (get_download id s).
    rewrite download_run.
    repeat case_match; eexists; (split; [reflexivity |]);
      first [apply Herr; [in_list | done] | left; split; [reflexivity | done]].
  - change (handle (Delete id) s) with (delete_file id s).
    destruct (fileMap s !! id) as [info|] eqn:Hinfo.
    + rewrite (delete_known s id info) by done.
      eexists. split; [reflexivity |]. left. split; [reflexivity | done].
    + destruct (decide (id ∈ Object_prototype)).
      * rewrite delete_inherited by done.
        eexists. split; [reflexivity |]. apply Herr; [in_list | done].
      * rewrite delete_unknown by done.
        eexists. split; [reflexivity |]. apply Herr; [in_list | done].
Qed.

End Answers.

Section Frames.
Context `{Platform}.

Lemma serve_cons (req : Request) (reqs : list Request) (s : Server) :
  serve (req :: reqs) s
  = ((handle req s).1 :: (serve reqs (handle req s).2).1,
     (serve reqs (handle req s).2).2).
Proof.
  simpl. destruct (handle req s) as [answer s']. simpl.
  destruct (serve reqs s') as [answers s'']. reflexivity.
Qed.

(** What a request can make of the state, all routes together: nothing,
    a line on the console, or a save after a change of the registry and
    the blob store. *)
Lemma handle_cases (req : Request) (s : Server) :
  (handle req s).2 = s
  ∨ (∃ tag, (handle req s).2 = set_console (console s ++ [tag]) s)
  ∨ ∃ x, (handle req s).2 = after_save x
         ∧ snapshot_writable x = snapshot_writable s
         ∧ snapshot x = snapshot s.
Proof.
  destruct req as [parts | | id | id].
  - destruct (upload_cases parts s) as [-> | (ps & _ & _ & ->)]; [by left |].
    right. right. eexists. split; [reflexivity |]. split; reflexivity.
  - by left.
  - change (handle (Download id) s) with (get_download id s).
    destruct (download_cases id s) as [-> | [-> | ->]]; [by left | |].
    + right. left. by eexists.
    + right. right. eexists. split; [reflexivity |]. split; reflexivity.
  - change (handle (Delete id) s) with (delete_file id s).
    destruct (delete_cases id s) as [-> | [-> | (blobs & ->)]]; [by left | |].
    + right. left. by eexists.
    + right. right. eexists. split; [reflexivity |]. split; reflexivity.
Qed.

Lemma writable_after_save (x : Server) :
  snapshot_writable (after_save x) = snapshot_writable x.
Proof. unfold after_save. by destruct (snapshot_writable x) eqn:Hx. Qed.

Lemma handle_writable (req : Request) (s : Server) :
  snapshot_writable (handle req s).2 = snapshot_writable s.
Proof.
  destruct (handle_cases req s) as [-> | [(tag & ->) | (x & -> & Hw & _)]];
    [done | done |].
  by rewrite writable_after_save.
Qed.

Lemma handle_in_step (req : Request) (s : Server) :
  snapshot_writable s = true →
  (fileMap (handle req s).2 ≠ fileMap s → in_step (handle req s).2)
  ∧ (in_step s → in_step (handle req s).2).
Proof.
  intros Hw.
  destruct (handle_cases req s) as [-> | [(tag & ->) | (x & -> & Hwx & _)]].
  - split; [intros Hne; by destruct Hne | done].
  - split; [intros Hne; by destruct Hne | done].
  - assert (Hstep : in_step (after_save x)).
    { unfold in_step, after_save. rewrite Hwx, Hw. reflexivity. }
    split; intros _; exact Hstep.
Qed.

End Frames.

Section FurtherServer.
Context `{Platform}.

(** X1.  The handlers answer every request that reaches them, in every
    sequence (uploads that multer has read, lists, downloads and deletes
    with the identifier express found in the path): no handler throws,
    each answer has status 200 and no [error] field, or status 400, 404
    or 500 and a body [{error}] with a non-empty text. *)
Theorem every_request_is_answered (reqs : list Request) (s : Server) :
  Forall routed reqs →
  length (serve reqs s).1 = length reqs
  ∧ Forall (λ answer, ∃ resp, answer = Normal resp ∧ regular_answer resp)
      (serve reqs s).1.
Proof.
  intros _. revert s. induction reqs as [|req reqs IH]; intros s.
  - split; [reflexivity | constructor].
  - rewrite serve_cons. simpl. destruct (IH (handle req s).2) as [Hlen Hall].
    split; [by rewrite Hlen |]. constructor; [| exact Hall].
    apply handle_regular.
Qed.

(** X2.  On a writable snapshot file, a sequence of requests that starts
    with the file holding the text of the registry ends with the file
    holding the text of the registry; and a single request that changes
    the registry leaves the file with the text of the new registry,
    whatever it held before. *)
Theorem snapshot_follows_registry (reqs : list Request) (req : Request)
    (s : Server) :
  snapshot_writable s = true →
  (in_step s → in_step (serve reqs s).2)
  ∧ (fileMap (handle req s).2 ≠ fileMap s → in_step (handle req s).2).
Proof.
  intros Hw. split; [| by apply handle_in_step].
  revert s Hw. induction reqs as [|r reqs IH]; intros s Hw Hs; [exact Hs |].
  rewrite serve_cons. simpl. apply IH.
  - by rewrite handle_writable.
  - by apply handle_in_step.
Qed.

(** X3.  Only an upload adds: a list, a download or a delete leaves a
    registry and a blob store that are parts of the former ones.  A list
    and a download never touch the blob store, even when the download
    removes a record; a delete removes no other blob than the one its
    record names. *)
Theorem only_upload_adds (req : Request) (s : Server) :
  (∀ parts, req ≠ Upload parts) →
  fileMap (handle req s).2 ⊆ fileMap s
  ∧ uploads (handle req s).2 ⊆ uploads s
  ∧ match req with
    | Delete id =>
        ∀ name, uploads (handle req s).2 !! name ≠ uploads s !! name →
          ∃ info, fileMap s !! id = Some info ∧ name = storedFilename info
    | _ => uploads (handle req s).2 = uploads s
    end.
Proof.
  intros Hreq. destruct req as [parts | | id | id].
  - by destruct (Hreq parts).
  - done.
  - change (handle (Download id) s) with (get_download id s).
    destruct (download_cases id s) as [-> | [-> | ->]]; [done | done |].
    rewrite fileMap_after_save, uploads_after_save. simpl.
    split; [apply delete_subseteq | done].
  - change (handle (Delete id) s) with (delete_file id s).
    destruct (fileMap s !! id) as [info|] eqn:Hinfo.
    + rewrite (delete_known s id info) by done. cbn [snd].
      rewrite fileMap_after_save, uploads_after_save. simpl.
      split; [apply delete_subseteq |]. split; [apply delete_subseteq |].
      intros name Hname. exists info. split; [done |].
      destruct (decide (name = storedFilename info)) as [-> | Hne]; [done |].
      by rewrite lookup_delete_ne in Hname.
    + destruct (decide (id ∈ Object_prototype)).
      * rewrite delete_inherited by done. done.
      * rewrite delete_unknown by done. done.
Qed.

End FurtherServer.

(** ** An upload and the requests that follow it *)

Section AfterUpload.
Context `{Platform}.

(** The answer and the state of an upload of which multer keeps one or
    more files. *)
Lemma upload_state (parts : list Part) (s : Server) :
  kept parts ≠ [] →
  ∃ s',
    handle (Upload (Some parts)) s
    = (Normal (json 200 (UploadBody "Files uploaded successfully"
                           (created (clock_reads s)
                              (stored_files (uuid_calls s) (kept parts))))), s')
    ∧ fileMap s'
      = insert_all (entries (created (clock_reads s)
                               (stored_files (uuid_calls s) (kept parts))))
          (fileMap s)
    ∧ uploads s'
      = insert_all (blob_entries (uuid_calls s) (kept parts)) (uploads s)
    ∧ snapshot_writable s' = snapshot_writable s.
Proof.
  intros Hne. eexists. split; [by apply upload_run |].
  rewrite fileMap_after_save, uploads_after_save.
  split; [reflexivity |]. split; [reflexivity |].
  by rewrite writable_after_save.
Qed.

Lemma Forall2_elem_of_r {A B : Type} (P : A → B → Prop) (l : list A) (k : list B) :
  Forall2 P l k → Forall2 (λ a b, P a b ∧ b ∈ k) l k.
Proof.
  intros HP. induction HP as [|a b l k Hab _ IH]; [constructor |].
  constructor; [split; [done | left] |].
  eapply Forall2_impl; [exact IH |]. intros a' b' [? ?]. split; [done | by right].
Qed.

Lemma map_to_list_insert_all {V : Type} (kvs : list (string * V))
    (m : gmap string V) :
  NoDup kvs.*1 → (∀ k, k ∈ kvs.*1 → m !! k = None) →
  map_to_list (insert_all kvs m) ≡ₚ kvs ++ map_to_list m.
Proof.
  revert m. induction kvs as [|[k v] kvs IH]; intros m Hnd Hfresh; [done |].
  rewrite fmap_cons in Hnd, Hfresh. apply NoDup_cons in Hnd as [Hk Hnd].
  rewrite insert_all_cons, IH; [| done |].
  - rewrite map_to_list_insert by (apply Hfresh; left).
    simpl. by rewrite Permutation_middle.
  - intros k' Hk'. rewrite lookup_insert_ne; [apply Hfresh; by right |].
    intros ->. done.
Qed.

Lemma delete_insert_all {V : Type} (kvs : list (string * V))
    (m : gmap string V) (k : string) :
  k ∉ kvs.*1 → delete k (insert_all kvs m) = insert_all kvs (delete k m).
Proof.
  revert m. induction kvs as [|[k' v'] kvs IH]; intros m Hk; [done |].
  rewrite fmap_cons, not_elem_of_cons in Hk. destruct Hk as [Hne Hk].
  rewrite !insert_all_cons, IH by done. by rewrite delete_insert_ne.
Qed.

End AfterUpload.

Section UploadCompositions.
Context `{Platform}.

Lemma blob_names_NoDup (c k : nat) (parts : list Part) :
  Forall (λ u, is_uuid u = true) (uuidv4 <$> seq k (length parts)) →
  NoDup (uuidv4 <$> seq k (length parts)) →
  NoDup (blob_entries k parts).*1.
Proof.
  intros Hids Hnd. rewrite <- (created_stored_names c).
  apply (NoDup_fmap_1 Path.parse_name).
  rewrite <- created_name_part. by rewrite created_uid.
Qed.

(** X4.  What was uploaded can be downloaded: after an upload of which
    multer keeps one or more files and whose generated identifiers are
    distinct UUIDs, the answer has one record for each part kept, in
    order, and the download of each record streams the content of its
    part, with the type busboy read for the part, the encoded file name it
    read and the byte length of the content as headers, and changes
    nothing. *)
Theorem uploaded_files_download (s : Server) (parts : list Part) :
  kept parts ≠ [] →
  Forall (λ u, is_uuid u = true) (drawn_ids s (length (kept parts))) →
  NoDup (drawn_ids s (length (kept parts))) →
  ∃ files s',
    handle (Upload (Some parts)) s
    = (Normal (json 200 (UploadBody "Files uploaded successfully" files)), s')
    ∧ Forall2
        (λ p r,
           handle (Download (uid r)) s'
           = (Normal (mkResponse 200
                        [ ("Content-Type",
                           HString (Busboy.event_mimeType (part_mimetype p)));
                          ("Content-Disposition",
                           HString ("attachment; filename=" +:+ dquote
                                    +:+ encodeURIComponent
                                          (Busboy.event_filename (part_originalname p))
                                    +:+ dquote));
                          ("Content-Length",
                           HNumber (N.of_nat (String.length (part_content p)))) ]
                        (StreamBody (part_content p))), s'))
        (filter accepted parts) files.
Proof.
  intros Hne Hids Hnd.
  destruct (upload_state parts s Hne) as (s' & Hrun & Hmap & Hblobs & _).
  set (rs := created (clock_reads s) (stored_files (uuid_calls s) (kept parts))) in *.
  exists rs, s'. split; [exact Hrun |].
  assert (Hrec : Forall2 (record_of (uploads s')) (filter accepted parts) rs).
  { apply created_record_of. fold (kept parts).
    intros name bytes Hin. rewrite Hblobs.
    apply insert_all_lookup_in; [| done].
    by apply (blob_names_NoDup (clock_reads s)). }
  apply Forall2_elem_of_r in Hrec.
  eapply Forall2_impl; [exact Hrec |].
  intros p r [(Hname & Hmime & Hsize & Hblob) Hr].
  rewrite <- Hname, <- Hmime, <- Hsize.
  apply download_present; [| exact Hblob |].
  - rewrite Hmap. apply insert_all_lookup_in; [| by apply entries_elem].
    rewrite entries_keys. unfold rs. by rewrite created_uid.
  - rewrite Hmime. apply BusboyFacts.event_mimeType_is_header_value.
Qed.

(** X5.  What was uploaded is listed: after an upload of which multer
    keeps one or more files and whose generated identifiers are distinct
    UUIDs that the registry did not hold, the list holds the records of
    the answer and the records listed before, each once, and no other. *)
Theorem uploaded_files_listed (s : Server) (parts : list Part) :
  kept parts ≠ [] →
  Forall (λ u, is_uuid u = true) (drawn_ids s (length (kept parts))) →
  NoDup (drawn_ids s (length (kept parts))) →
  (∀ u, u ∈ drawn_ids s (length (kept parts)) → fileMap s !! u = None) →
  ∃ files s' listed,
    handle (Upload (Some parts)) s
    = (Normal (json 200 (UploadBody "Files uploaded successfully" files)), s')
    ∧ handle ListFiles s'
      = (Normal (mkResponse 200 [("Content-Type", HString "application/json")]
                   (FilesBody listed)), s')
    ∧ listed ≡ₚ files ++ Object_values (fileMap s).
Proof.
  intros Hne Hids Hnd Hfresh.
  destruct (upload_state parts s Hne) as (s' & Hrun & Hmap & _ & _).
  set (rs := created (clock_reads s) (stored_files (uuid_calls s) (kept parts))) in *.
  assert (Hkeys : (entries rs).*1 = drawn_ids s (length (kept parts))).
  { rewrite entries_keys. unfold rs. by rewrite created_uid. }
  exists rs, s', (Object_values (fileMap s')).
  split; [exact Hrun |]. split; [reflexivity |].
  unfold Object_values. rewrite Hmap.
  rewrite map_to_list_insert_all; [| by rewrite Hkeys | by rewrite Hkeys].
  rewrite fmap_app. f_equiv. unfold entries.
  rewrite <- list_fmap_compose.
  change ((snd ∘ λ r : FileInfo, (uid r, r)) <$> rs) with (id <$> rs).
  by rewrite list_fmap_id.
Qed.

End UploadCompositions.

Section UndoUpload.
Context `{Platform}.

(** Deleting, one after the other, the records [rs] that were put on top
    of a registry [m0] and a blob store [u0] gives [m0] and [u0] back. *)
Lemma serve_deletes (rs : list FileInfo) (bs : list (string * string))
    (m0 : gmap string FileInfo) (u0 : gmap string string) (t : Server) :
  bs.*1 = storedFilename <$> rs →
  NoDup (uid <$> rs) → NoDup bs.*1 →
  (∀ k, k ∈ uid <$> rs → m0 !! k = None) →
  (∀ name, name ∈ bs.*1 → u0 !! name = None) →
  fileMap t = insert_all (entries rs) m0 →
  uploads t = insert_all bs u0 →
  (serve (Delete <$> (uid <$> rs)) t).1
  = replicate (length rs)
      (Normal (json 200 (MessageBody "File deleted successfully")))
  ∧ fileMap (serve (Delete <$> (uid <$> rs)) t).2 = m0
  ∧ uploads (serve (Delete <$> (uid <$> rs)) t).2 = u0.
Proof.
  revert bs m0 u0 t. induction rs as [|r rs IH];
    intros bs m0 u0 t Hnames Hndk Hndn Hfk Hfn Hmap Hblobs.
  - destruct bs; [| discriminate]. done.
  - destruct bs as [|[name bytes] bs]; [discriminate |].
    rewrite !fmap_cons in *. injection Hnames as Hname Hnames. simpl in Hname.
    apply NoDup_cons in Hndk as [Hk Hndk]. apply NoDup_cons in Hndn as [Hn Hndn].
    change (entries (r :: rs)) with ((uid r, r) :: entries rs) in Hmap.
    rewrite insert_all_cons in Hmap. rewrite insert_all_cons in Hblobs.
    assert (Hr : fileMap t !! uid r = Some r).
    { rewrite Hmap, insert_all_lookup_notin by (by rewrite entries_keys).
      apply lookup_insert_eq. }
    rewrite serve_cons.
    change (handle (Delete (uid r)) t) with (delete_file (uid r) t).
    rewrite (delete_known t (uid r) r Hr). cbn [fst snd].
    set (t1 := after_save _).
    assert (Hmap1 : fileMap t1 = insert_all (entries rs) m0).
    { unfold t1. rewrite fileMap_after_save. simpl. rewrite Hmap.
      rewrite delete_insert_all by (by rewrite entries_keys).
      rewrite delete_insert_id; [done |]. apply Hfk. left. }
    assert (Hblobs1 : uploads t1 = insert_all bs u0).
    { unfold t1. rewrite uploads_after_save. simpl. rewrite Hblobs, <- Hname.
      rewrite delete_insert_all by done.
      rewrite delete_insert_id; [done |]. apply Hfn. left. }
    destruct (IH bs m0 u0 t1) as (Hanswers & Hm & Hu); try done.
    + intros k Hk'. apply Hfk. by right.
    + intros n Hn'. apply Hfn. by right.
    + simpl. by rewrite Hanswers.
Qed.

(** X6.  Deleting what was uploaded undoes the upload: after an upload
    of which multer keeps one or more files, whose generated identifiers
    are distinct UUIDs that the registry did not hold, and whose stored
    names were free in the upload directory, the deletes of the records of
    the answer, one after the other, all answer 200 and leave the registry
    and the blob store as they were before the upload. *)
Theorem deletes_undo_upload (s : Server) (parts : list Part) :
  kept parts ≠ [] →
  Forall (λ u, is_uuid u = true) (drawn_ids s (length (kept parts))) →
  NoDup (drawn_ids s (length (kept parts))) →
  (∀ u, u ∈ drawn_ids s (length (kept parts)) → fileMap s !! u = None) →
  (∀ name, name ∈ (blob_entries (uuid_calls s) (kept parts)).*1 →
     uploads s !! name = None) →
  ∃ files s',
    handle (Upload (Some parts)) s
    = (Normal (json 200 (UploadBody "Files uploaded successfully" files)), s')
    ∧ (serve (Delete <$> (uid <$> files)) s').1
      = replicate (length (kept parts))
          (Normal (json 200 (MessageBody "File deleted successfully")))
    ∧ fileMap (serve (Delete <$> (uid <$> files)) s').2 = fileMap s
    ∧ uploads (serve (Delete <$> (uid <$> files)) s').2 = uploads s.
Proof.
  intros Hne Hids Hnd Hfresh Hfree.
  destruct (upload_state parts s Hne) as (s' & Hrun & Hmap & Hblobs & _).
  set (rs := created (clock_reads s) (stored_files (uuid_calls s) (kept parts))) in *.
  assert (Huid : uid <$> rs = drawn_ids s (length (kept parts)))
    by (unfold rs; by rewrite created_uid).
  exists rs, s'. split; [exact Hrun |].
  destruct (serve_deletes rs (blob_entries (uuid_calls s) (kept parts))
              (fileMap s) (uploads s) s') as (Hanswers & Hm & Hu); try done.
  - symmetry. apply created_stored_names.
  - by rewrite Huid.
  - by apply (blob_names_NoDup (clock_reads s)).
  - intros k Hk. apply Hfresh. by rewrite <- Huid.
  - split; [| done]. rewrite Hanswers. f_equal.
    unfold rs. by rewrite created_length, stored_files_length.
Qed.

(** X7.  A generated identifier that the registry already holds takes the
    place over: the upload of a file multer keeps answers 200 as ever, the new record replaces
    the old one under that identifier, the registry does not grow, and the
    blob of the old record, when its name differs from the new one, stays
    in the upload directory without a record. *)
Theorem upload_on_taken_id_replaces (s : Server) (p : Part) (old : FileInfo) :
  accepted p →
  is_uuid (uuidv4 (uuid_calls s)) = true →
  fileMap s !! uuidv4 (uuid_calls s) = Some old →
  ∃ r s',
    handle (Upload (Some [p])) s
    = (Normal (json 200 (UploadBody "Files uploaded successfully" [r])), s')
    ∧ uid r = uuidv4 (uuid_calls s)
    ∧ originalFilename r = Busboy.event_filename (part_originalname p)
    ∧ fileMap s' = <[uuidv4 (uuid_calls s) := r]> (fileMap s)
    ∧ base.size (fileMap s') = base.size (fileMap s)
    ∧ (storedFilename old ≠ storedFilename r →
       uploads s' !! storedFilename old = uploads s !! storedFilename old).
Proof.
  intros Hp Hu Hold.
  assert (Hkept : kept [p] = [multer_part p])
    by (apply (kept_accepted [p]); by constructor).
  destruct (upload_state [p] s) as (s' & Hrun & Hmap & Hblobs & _);
    [by rewrite Hkept |].
  rewrite Hkept in Hrun, Hmap, Hblobs.
  simpl in Hrun, Hmap, Hblobs.
  rewrite PathFacts.parse_name_uuid in Hrun, Hmap by done.
  eexists _, s'. split; [exact Hrun |].
  split; [reflexivity |]. split; [reflexivity |].
  split; [exact Hmap |]. split.
  - rewrite Hmap. apply map_size_insert_Some. eauto.
  - intros Hne. rewrite Hblobs. by rewrite lookup_insert_ne.
Qed.

End UndoUpload.

(** ** The start, again *)

Section SecondStart.
Context `{Platform}.

(** X8.  A start that succeeded leaves a file system on which the next
    start succeeds too, with the same registry, without touching the
    snapshot and without a line on the console: the repair of a malformed
    snapshot is done once ([JSON.parse] being able to read the text of the
    empty registry). *)
Theorem second_start_is_quiet (files : gmap string string)
    (snap : option string) (writable : bool) (s1 : Server) :
  JSON_parse (JSON_stringify ∅) = Some ∅ →
  startup files snap writable = (Normal tt, s1) →
  ∃ s2,
    startup (uploads s1) (snapshot s1) (snapshot_writable s1) = (Normal tt, s2)
    ∧ fileMap s2 = fileMap s1
    ∧ snapshot s2 = snapshot s1
    ∧ console s2 = [].
Proof.
  intros Hempty Hstart. destruct snap as [data|].
  - destruct (JSON_parse data) as [m|] eqn:Hparse.
    + rewrite (startup_well_formed _ _ _ m Hparse) in Hstart.
      injection Hstart as <-. simpl.
      rewrite (startup_well_formed _ _ _ m Hparse). by eexists.
    + destruct writable.
      * rewrite startup_malformed_writable in Hstart by done.
        injection Hstart as <-. simpl.
        rewrite (startup_well_formed _ _ _ ∅ Hempty). by eexists.
      * rewrite startup_malformed_unwritable in Hstart by done. discriminate.
  - rewrite startup_absent in Hstart. injection Hstart as <-. simpl.
    rewrite startup_absent. by eexists.
Qed.

End SecondStart.

(** ** Stored names and header values *)

Module PathFacts2.
Import Path PathSpec PathFacts.
Local Close Scope string_scope.
Local Open Scope list_scope.

(** The scan of a plain stem alone. *)
Lemma scan_stem_bare (u : list ascii) :
  u ≠ [] → Forall plain u →
  scan_back (rev u) (Z.of_nat (length u) - 1) scan_init
  = mkScan (-1) 0 (Z.of_nat (length u)) false 0.
Proof.
  intros Hne Hu.
  assert (Hrev : Forall plain (rev u)) by (by apply Forall_rev).
  assert (Hlen : (0 < Z.of_nat (length u))%Z) by (destruct u; [done | simpl; lia]).
  pose proof (scan_back_plain (rev u) [] (Z.of_nat (length u) - 1) scan_init
                Hrev (rev_nonempty _ Hne) ltac:(lia)) as Hscan.
  rewrite app_nil_r in Hscan. rewrite Hscan.
  simpl. rewrite scan_plain_init. f_equal. lia.
Qed.

(** The scan of a plain stem followed by a dot and plain characters. *)
Lemma scan_stem_dot (u t : list ascii) :
  u ≠ [] → Forall plain u → Forall plain t →
  scan_back (rev (u ++ "."%char :: t))
    (Z.of_nat (length (u ++ "."%char :: t)) - 1) scan_init
  = mkScan (Z.of_nat (length u)) 0
      (Z.of_nat (length (u ++ "."%char :: t))) false (-1).
Proof.
  intros Hne Hu Ht.
  assert (Hlen : (0 < Z.of_nat (length u))%Z) by (destruct u; [done | simpl; lia]).
  assert (Hrev : Forall plain (rev u)) by by apply Forall_rev.
  assert (Hrne : rev u ≠ []) by by apply rev_nonempty.
  rewrite rev_app_distr. simpl rev. rewrite <- !app_assoc. simpl app.
  rewrite length_app. simpl length.
  set (n := Z.of_nat (length u)) in *.
  assert (Hstem : ∀ e0, e0 ≠ (-1)%Z →
    scan_back ("."%char :: rev u) n (mkScan (-1) 0 e0 false 0)
    = mkScan n 0 e0 false (-1)).
  { intros e0 He0. simpl scan_back. rewrite scan_dot_first by done.
    pose proof (scan_back_plain (rev u) [] (n - 1) (mkScan n 0 e0 false 0)
                  Hrev Hrne ltac:(lia)) as Hscan.
    rewrite app_nil_r in Hscan. rewrite Hscan. simpl scan_back.
    apply scan_plain_after_dot; [lia | done]. }
  destruct (decide (t = [])) as [-> | Htne].
  - simpl app. simpl length.
    replace (Z.of_nat (length u + 1) - 1)%Z with n by lia.
    simpl scan_back. rewrite scan_dot_init.
    pose proof (scan_back_plain (rev u) [] (n - 1) (mkScan n 0 (n + 1) false 0)
                  Hrev Hrne ltac:(lia)) as Hscan.
    rewrite app_nil_r in Hscan. rewrite Hscan. simpl scan_back.
    rewrite scan_plain_after_dot by lia. f_equal. lia.
  - rewrite scan_back_plain
      by (try apply Forall_rev; try apply rev_nonempty; try done; lia).
    rewrite length_rev, scan_plain_init.
    replace (Z.of_nat (length u + S (length t)) - 1 - Z.of_nat (length t))%Z
      with n by lia.
    replace (Z.of_nat (length u + S (length t)) - 1 + 1)%Z
      with (Z.of_nat (length u + S (length t))) by lia.
    apply Hstem. lia.
Qed.

Lemma slice_suffix (u e : list ascii) :
  slice (u ++ e) (Z.of_nat (length u)) (Z.of_nat (length (u ++ e))) = e.
Proof.
  unfold slice. rewrite !Nat2Z.id, length_app, drop_app_length.
  replace (length u + length e - length u) with (length e) by lia.
  apply firstn_all.
Qed.

(** The extension of a plain, non-empty stem followed by an extension is
    that extension. *)
Lemma extname_chars_stem (u e : list ascii) :
  u ≠ [] → Forall plain u → ext_shape e → extname_chars (u ++ e) = e.
Proof.
  intros Hne Hu [-> | (t & -> & Ht)]; unfold extname_chars.
  - rewrite app_nil_r, scan_stem_bare by done. reflexivity.
  - rewrite scan_stem_dot by done. unfold no_extension. simpl.
    assert (Hlen : (0 < Z.of_nat (length u))%Z) by (destruct u; [done | simpl; lia]).
    replace (Z.of_nat (length u) =? -1)%Z with false
      by (symmetry; apply Z.eqb_neq; lia).
    replace (Z.of_nat (length (u ++ "."%char :: t)) =? -1)%Z with false
      by (symmetry; apply Z.eqb_neq; lia).
    simpl. apply slice_suffix.
Qed.

Lemma ext_shape_no_slash (e : list ascii) :
  ext_shape e → Forall (λ c, is_slash c = false) e.
Proof.
  intros [-> | (t & -> & Ht)]; [constructor |].
  constructor; [reflexivity |]. eapply Forall_impl; [exact Ht |]. by intros c [? _].
Qed.

End PathFacts2.

Section StoredNames.
Context `{Platform}.

(** X9.  The name multer stores an uploaded file under, when the
    identifier drawn is a UUID: it keeps the extension of the original
    name, its name part is the identifier, and it contains no [/], so the
    blob lands in the uploads directory itself whatever the original name
    was. *)
Theorem stored_name_is_id_and_extension (original : string) (s : Server) :
  is_uuid (uuidv4 (uuid_calls s)) = true →
  ∃ name,
    storage_filename original s
      = (Normal name, set_uuid_calls (S (uuid_calls s)) s)
    ∧ Path.extname name = Path.extname original
    ∧ Path.parse_name name = uuidv4 (uuid_calls s)
    ∧ Forall (λ c, c ≠ "/"%char) (list_ascii_of_string name).
Proof.
  intros Hu. exists (uuidv4 (uuid_calls s) +:+ Path.extname original).
  assert (Hplain : Forall PathSpec.plain (list_ascii_of_string (uuidv4 (uuid_calls s))))
    by by apply (PathFacts.uuid_chars_plain _ 0).
  assert (Hne : list_ascii_of_string (uuidv4 (uuid_calls s)) ≠ []).
  { destruct (uuidv4 (uuid_calls s)); [discriminate | done]. }
  split; [reflexivity |]. split; [| split].
  - unfold Path.extname at 1 2.
    rewrite PathFacts.list_ascii_of_string_app, list_ascii_of_string_of_list_ascii.
    by rewrite PathFacts2.extname_chars_stem
      by (try apply PathFacts.extname_chars_shape; done).
  - by apply PathFacts.parse_name_uuid.
  - unfold Path.extname.
    rewrite PathFacts.list_ascii_of_string_app, list_ascii_of_string_of_list_ascii.
    apply Forall_app. split.
    + eapply Forall_impl; [exact Hplain |]. intros c [Hs _] ->. discriminate.
    + eapply Forall_impl;
        [apply PathFacts2.ext_shape_no_slash, PathFacts.extname_chars_shape |].
      intros c Hs ->. discriminate.
Qed.

End StoredNames.

Section HeaderValues.
Context `{Platform}.

(** X10.  Whatever name a file was uploaded under, the
    [Content-Disposition] header of a download that succeeds is
    [attachment; filename=] followed by a quoted text in which every
    character is printable and none is a quote or a backslash: the original
    name cannot end the quoted value or add a header parameter. *)
Theorem download_header_is_well_quoted (id : string) (s s' : Server)
    (resp : Response) :
  handle (Download id) s = (Normal resp, s') →
  status resp = 200 →
  ∃ text,
    headers resp !! 1%nat
      = Some ("Content-Disposition",
              HString ("attachment; filename=" +:+ dquote +:+ text +:+ dquote))
    ∧ Forall quotable (list_ascii_of_string text).
Proof.
  intros Hrun Hstatus.
  change (handle (Download id) s) with (get_download id s) in Hrun.
  rewrite download_run in Hrun.
  destruct (fileMap s !! id) as [info|];
    [destruct (uploads s !! storedFilename info) as [bytes|];
     [destruct (checkInvalidHeaderChar (mimeType info)) |] |
     destruct (bool_decide (id ∈ Object_prototype))];
    injection Hrun as <- <-; try discriminate Hstatus.
  exists (encodeURIComponent (originalFilename info)).
  split; [reflexivity | apply encodeURIComponent_quotable].
Qed.

End HeaderValues.

(** ** Every registered file can be downloaded *)

Section Intact.
Context `{Platform}.

Lemma intact_after_save (x : Server) : intact x → intact (after_save x).
Proof.
  intros Hx k r. rewrite fileMap_after_save, uploads_after_save. apply Hx.
Qed.

Lemma intact_forget (s : Server) (id : string) :
  intact s → intact (set_fileMap (delete id (fileMap s)) s).
Proof.
  intros Hs k r Hk. simpl in Hk. apply lookup_delete_Some in Hk as [_ Hk].
  by apply Hs.
Qed.

(** Two records of an intact registry that share their blob are one. *)
Lemma intact_blob_key (s : Server) (k1 k2 : string) (r1 r2 : FileInfo) :
  intact s → fileMap s !! k1 = Some r1 → fileMap s !! k2 = Some r2 →
  storedFilename r1 = storedFilename r2 → k1 = k2.
Proof.
  intros Hs H1 H2 Hname.
  destruct (Hs _ _ H1) as (Hu1 & Hk1 & Hn1 & _ & _).
  destruct (Hs _ _ H2) as (Hu2 & Hk2 & Hn2 & _ & _).
  unfold well_named in Hn1, Hn2. rewrite Hk1 in Hn1. rewrite Hk2 in Hn2.
  rewrite <- (PathFacts.parse_name_uuid k1 (originalFilename r1)) by done.
  rewrite <- (PathFacts.parse_name_uuid k2 (originalFilename r2)) by done.
  by rewrite <- Hn1, <- Hn2, Hname.
Qed.

Lemma intact_delete (s : Server) (id : string) (info : FileInfo) :
  fileMap s !! id = Some info → intact s →
  intact (set_fileMap (delete id (fileMap s))
            (set_uploads (delete (storedFilename info) (uploads s)) s)).
Proof.
  intros Hinfo Hs k r Hk. simpl in Hk. apply lookup_delete_Some in Hk as [Hne Hk].
  destruct (Hs _ _ Hk) as (Hu & Huid & Hn & Htype & Hblob).
  repeat split; try done. simpl. rewrite lookup_delete_ne; [done |].
  intros Hname. apply Hne. by apply (intact_blob_key s id k info r).
Qed.

Lemma intact_upload (s s' : Server) (parts : list Part) :
  Forall (λ u, is_uuid u = true) (drawn_ids s (length (kept parts))) →
  fileMap s'
    = insert_all (entries (created (clock_reads s)
                             (stored_files (uuid_calls s) (kept parts))))
        (fileMap s) →
  uploads s' = insert_all (blob_entries (uuid_calls s) (kept parts)) (uploads s) →
  intact s → intact s'.
Proof.
  intros Hids Hmap Hblobs Hs k r Hk. rewrite Hmap in Hk. rewrite Hblobs.
  set (rs := created (clock_reads s) (stored_files (uuid_calls s) (kept parts))) in *.
  assert (Huids : uid <$> rs = drawn_ids s (length (kept parts)))
    by by apply created_uid.
  destruct (decide (k ∈ (entries rs).*1)) as [Hin | Hnotin].
  - destruct (insert_all_lookup_entry (entries rs) (fileMap s) k Hin)
      as (v & Hv & Hentry).
    rewrite Hk in Hv. injection Hv as <-.
    unfold entries in Hentry. apply list_elem_of_fmap in Hentry as (r' & [= -> ->] & Hr).
    split; [| split; [reflexivity | split; [| split]]].
    + apply (proj1 (Forall_forall _ _) Hids). rewrite <- Huids.
      by apply list_elem_of_fmap_2.
    + by apply (proj1 (Forall_forall _ _)
                  (created_well_named (clock_reads s) (uuid_calls s) (kept parts) Hids)).
    + by apply (proj1 (Forall_forall _ _)
                  (created_types (clock_reads s) (uuid_calls s) parts)).
    + apply insert_all_lookup_is_Some.
      rewrite <- (created_stored_names (clock_reads s)).
      by apply list_elem_of_fmap_2.
  - rewrite insert_all_lookup_notin in Hk by done.
    destruct (Hs _ _ Hk) as (Hu & Huid & Hn & Htype & Hblob).
    repeat split; try done.
    destruct (decide (storedFilename r
                      ∈ (blob_entries (uuid_calls s) (kept parts)).*1)).
    + by apply insert_all_lookup_is_Some.
    + by rewrite insert_all_lookup_notin.
Qed.

Lemma handle_intact (req : Request) (s : Server) :
  (∀ n, is_uuid (uuidv4 n) = true) → intact s → intact (handle req s).2.
Proof.
  intros Hids Hs. destruct req as [[parts|] | | id | id].
  - destruct (decide (kept parts = [])) as [Hnone | Hne];
      [by rewrite upload_none_kept |].
    destruct (upload_state parts s Hne) as (s' & Hrun & Hmap & Hblobs & _).
    rewrite Hrun. apply (intact_upload s s' parts); try done.
    apply Forall_forall. intros u Hu. unfold drawn_ids in Hu.
    apply list_elem_of_fmap in Hu as (n & -> & _). apply Hids.
  - exact Hs.
  - exact Hs.
  - change (handle (Download id) s) with (get_download id s).
    destruct (download_cases id s) as [-> | [-> | ->]]; [done | done |].
    by apply intact_after_save, intact_forget.
  - simpl. destruct (fileMap s !! id) as [info|] eqn:Hinfo.
    + rewrite (delete_known s id info) by done.
      by apply intact_after_save, intact_delete.
    + destruct (decide (id ∈ Object_prototype)).
      * by rewrite delete_inherited.
      * by rewrite delete_unknown.
Qed.

Lemma serve_intact (reqs : list Request) (s : Server) :
  (∀ n, is_uuid (uuidv4 n) = true) → intact s → intact (serve reqs s).2.
Proof.
  intros Hids. revert s. induction reqs as [|req reqs IH]; intros s Hs; [exact Hs |].
  rewrite serve_cons. simpl. apply IH. by apply handle_intact.
Qed.

(** X11.  On a server whose identifiers are UUIDs and that starts from a
    registry in which every record is keyed by its identifier, named after
    it, has a mime type that is a header value and has its blob (the empty
    registry of a first start, for one),
    whatever requests are served, a download of any file the registry then
    holds streams that file's blob, with a 200, and changes nothing. *)
Theorem registered_files_download_after_any_requests (reqs : list Request)
    (s : Server) (k : string) (r : FileInfo) :
  (∀ n, is_uuid (uuidv4 n) = true) →
  intact s →
  fileMap (serve reqs s).2 !! k = Some r →
  ∃ bytes,
    uploads (serve reqs s).2 !! storedFilename r = Some bytes
    ∧ handle (Download k) (serve reqs s).2
      = (Normal (streamed r bytes), (serve reqs s).2).
Proof.
  intros Hids Hs Hk.
  destruct (serve_intact reqs s Hids Hs k r Hk)
    as (_ & _ & _ & Htype & [bytes Hblob]).
  exists bytes. split; [exact Hblob |]. by apply download_present.
Qed.

End Intact.

(** * The client *)

Module ClientFacts.
Import Client.

(** ** [api/fileService.ts] against the routes *)

Section Calls.
Context `{Platform}.

(** The registry after a call of [deleteFile]. *)
Lemma deleteFile_registry (id : string) (s : Server) :
  fileMap (deleteFile id s).2 = delete id (fileMap s).
Proof.
  unfold deleteFile. simpl handle.
  destruct (fileMap s !! id) as [info|] eqn:Hinfo.
  - rewrite (delete_known s id info) by done.
    cbn [snd]. by rewrite fileMap_after_save.
  - rewrite (delete_id _ _ Hinfo).
    destruct (decide (id ∈ Object_prototype)) as [Hin | Hnotin].
    + by rewrite delete_inherited.
    + by rewrite delete_unknown.
Qed.

(** X12.  [deleteFile] against the server, for an identifier that is a
    path segment as it stands: the promise resolves exactly when the
    registry held a record under the identifier; it rejects with the text
    of the server's answer, [File not found] or, for a member name of
    [Object.prototype], [File deletion failed], not with its own fallback
    text; and in every case the registry afterwards is the one before
    without the identifier. *)
Theorem deleteFile_outcome (id : string) (s : Server) :
  path_segment id = true →
  (deleteFile id s).1
  = match fileMap s !! id with
    | Some _ => Normal tt
    | None =>
        if bool_decide (id ∈ Object_prototype)
        then Throw "File deletion failed" else Throw "File not found"
    end
  ∧ fileMap (deleteFile id s).2 = delete id (fileMap s).
Proof.
  intros _. split; [| apply deleteFile_registry].
  unfold deleteFile. simpl handle.
  destruct (fileMap s !! id) as [info|] eqn:Hinfo.
  - by rewrite (delete_known s id info).
  - destruct (decide (id ∈ Object_prototype)) as [Hin | Hnotin].
    + by rewrite delete_inherited, bool_decide_eq_true_2.
    + by rewrite delete_unknown, bool_decide_eq_false_2.
Qed.

Lemma created_original_names (c k : nat) (parts : list Part) :
  originalFilename <$> created c (stored_files k parts)
  = part_originalname <$> parts.
Proof.
  revert c k. induction parts as [|p parts IH]; intros c k; [reflexivity |].
  simpl. f_equal. apply IH.
Qed.

(** X13.  [uploadFiles] against the server: when multer keeps none of
    the files (there is none, or every name is dropped) the promise
    rejects with the server's text, [No files uploaded], and the server is
    as before; otherwise it resolves with the records created, one for
    each file kept, in order, under the file name busboy read: the base
    name of the name sent, its bytes read as latin1. *)
Theorem uploadFiles_outcome (files : list Part) (s : Server) :
  match kept files with
  | [] => uploadFiles files s = (Throw "No files uploaded", s)
  | _ :: _ =>
      ∃ records,
        (uploadFiles files s).1 = Normal (Some records)
        ∧ originalFilename <$> records
          = (Busboy.event_filename ∘ part_originalname) <$> filter accepted files
  end.
Proof.
  destruct (kept files) as [|p ps] eqn:Hkept.
  - unfold uploadFiles. by rewrite upload_none_kept.
  - unfold uploadFiles. rewrite upload_run by (by rewrite Hkept). eexists.
    split; [reflexivity |].
    rewrite created_original_names. unfold kept.
    by rewrite <- list_fmap_compose.
Qed.

End Calls.
End ClientFacts.

Module AppFacts.
Import Client.

(** ** [App.tsx]: the order of the list *)

Section Sorting.
Context {A : Type} (time : A → Z).

(** The comparison is the one of [fetchFiles], for any records with a
    time: [time b - time a]. *)

Lemma sort_insert_Permutation (x : A) (l : list A) :
  sort_insert (λ a b, (time b - time a)%Z) x l ≡ₚ x :: l.
Proof.
  induction l as [|y l IH]; [reflexivity |]. simpl.
  destruct (0 <? (λ a b, (time b - time a)%Z) x y)%Z; [| reflexivity].
  rewrite IH. apply Permutation_swap.
Qed.

Lemma Array_sort_Permutation (l : list A) : Array_sort (λ a b, (time b - time a)%Z) l ≡ₚ l.
Proof.
  induction l as [|x l IH]; [reflexivity |]. unfold Array_sort in *. simpl.
  by rewrite sort_insert_Permutation, IH.
Qed.

Lemma sort_insert_sorted (x : A) (l : list A) :
  StronglySorted (λ a b, (time b ≤ time a)%Z) l →
  StronglySorted (λ a b, (time b ≤ time a)%Z) (sort_insert (λ a b, (time b - time a)%Z) x l).
Proof.
  induction 1 as [|y l Hl IH Hy]; simpl.
  - repeat constructor.
  - destruct (Z.ltb_spec 0 (time y - time x)) as [Hlt | Hge].
    + constructor; [exact IH |].
      rewrite sort_insert_Permutation. constructor; [lia | exact Hy].
    + constructor; [by constructor |]. constructor; [lia |].
      eapply Forall_impl; [exact Hy |]. simpl. intros z Hz. lia.
Qed.

Lemma Array_sort_sorted (l : list A) :
  StronglySorted (λ a b, (time b ≤ time a)%Z) (Array_sort (λ a b, (time b - time a)%Z) l).
Proof.
  induction l as [|x l IH]; [constructor |]. by apply sort_insert_sorted.
Qed.

Lemma sort_insert_stable (t : Z) (x : A) (l : list A) :
  filter (λ a, time a = t) (sort_insert (λ a b, (time b - time a)%Z) x l)
  = filter (λ a, time a = t) (x :: l).
Proof.
  induction l as [|y l IH]; [reflexivity |]. simpl sort_insert.
  destruct (Z.ltb_spec 0 (time y - time x)) as [Hlt | Hge];
    [| reflexivity].
  rewrite (filter_cons _ y), IH, !(filter_cons _ x), !(filter_cons _ y).
  repeat case_decide; try reflexivity. lia.
Qed.

Lemma Array_sort_stable (t : Z) (l : list A) :
  filter (λ a, time a = t) (Array_sort (λ a b, (time b - time a)%Z) l)
  = filter (λ a, time a = t) l.
Proof.
  induction l as [|x l IH]; [reflexivity |]. unfold Array_sort in *. simpl foldr.
  by rewrite sort_insert_stable, !filter_cons, IH.
Qed.

End Sorting.

Section Order.
Variable getTime : string → Z.

(** X14.  The list [fetchFiles] stores: the records [getFiles] returned,
    each as often as it was returned, newest first, and records of one
    upload time in the order the server sent them. *)
Theorem fetchFiles_orders_newest_first (data : list FileInfo) :
  fetchFiles_files getTime data ≡ₚ data
  ∧ StronglySorted
      (λ a b, (getTime (uploadTime b) ≤ getTime (uploadTime a))%Z)
      (fetchFiles_files getTime data)
  ∧ ∀ t, filter (λ file, getTime (uploadTime file) = t)
           (fetchFiles_files getTime data)
         = filter (λ file, getTime (uploadTime file) = t) data.
Proof.
  split; [| split].
  - apply (Array_sort_Permutation (λ file, getTime (uploadTime file))).
  - apply (Array_sort_sorted (λ file, getTime (uploadTime file))).
  - intros t. apply (Array_sort_stable (λ file, getTime (uploadTime file))).
Qed.

End Order.
End AppFacts.

Module ViewFacts.
Import Client.

(** ** [App.tsx]: the list after a deletion *)

Section LocalDelete.
Context `{Platform}.
Variable getTime : string → Z.




End LocalDelete.

(** ** [components/FileList.tsx]: the groups *)

Section Groups.

(** The groups the [reduce] builds from an accumulator, when no name is
    one of a member of [Object.prototype]. *)
Lemma reduce_groups_plain (files : list FileInfo)
    (acc : gmap string (list FileInfo)) :
  Forall (λ file, originalFilename file ∉ Object_prototype) files →
  ∃ groups,
    reduce_groups files acc = Normal groups
    ∧ ∀ name,
        groups !! name
        = match acc !! name, named name files with
          | None, [] => None
          | None, group => Some group
          | Some own, group => Some (own ++ group)%list
          end.
Proof.
  intros Hfiles. revert acc.
  induction Hfiles as [|file files Hfile _ IH]; intros acc.
  - exists acc. split; [reflexivity |]. intros name. unfold named. simpl.
    destruct (acc !! name); [by rewrite app_nil_r | done].
  - simpl reduce_groups. unfold group_file.
    destruct (acc !! originalFilename file) as [own|] eqn:Hown.
    + destruct (IH (<[originalFilename file := (own ++ [file])%list]> acc))
        as (groups & -> & Hgroups).
      exists groups. split; [reflexivity |]. intros name. rewrite Hgroups.
      unfold named. rewrite filter_cons.
      destruct (decide (originalFilename file = name)) as [<- | Hne].
      * rewrite lookup_insert_eq, Hown. by rewrite <- app_assoc.
      * by rewrite lookup_insert_ne.
    + rewrite bool_decide_eq_false_2 by done.
      destruct (IH (<[originalFilename file := [file]]> acc))
        as (groups & -> & Hgroups).
      exists groups. split; [reflexivity |]. intros name. rewrite Hgroups.
      unfold named. rewrite filter_cons.
      destruct (decide (originalFilename file = name)) as [<- | Hne].
      * rewrite lookup_insert_eq, Hown. reflexivity.
      * by rewrite lookup_insert_ne.
Qed.

(** The [reduce] throws at the first such name, the accumulator having no
    own property of a name of that kind. *)
Lemma reduce_groups_inherited (files : list FileInfo)
    (acc : gmap string (list FileInfo)) :
  (∀ name, is_Some (acc !! name) → name ∉ Object_prototype) →
  Exists (λ file, originalFilename file ∈ Object_prototype) files →
  reduce_groups files acc = Throw "TypeError".
Proof.
  intros Hacc Hfiles. revert acc Hacc.
  induction files as [|file files IH]; intros acc Hacc; [by inversion Hfiles |].
  simpl reduce_groups. unfold group_file.
  destruct (decide (originalFilename file ∈ Object_prototype)) as [Hin | Hnotin].
  - destruct (acc !! originalFilename file) as [own|] eqn:Hown.
    + exfalso. by apply (Hacc (originalFilename file)).
    + by rewrite bool_decide_eq_true_2.
  - apply Exists_cons in Hfiles as [? | Hfiles]; [done |].
    destruct (acc !! originalFilename file) as [own|] eqn:Hown;
      [| rewrite bool_decide_eq_false_2 by done];
      (apply IH; [exact Hfiles |]); intros name Hname;
      (destruct (decide (originalFilename file = name)) as [<- | Hne];
       [done | rewrite lookup_insert_ne in Hname by done; by apply Hacc]).
Qed.

(** X16.  The groups of the file list.  When no file shown is named like
    a member of [Object.prototype], every name has as its group the files
    of that name, in the order of the list, and a name no file has has no
    group.  When one is (a file uploaded as [constructor] or [toString],
    say), the [reduce] throws a [TypeError] and the list is not
    rendered. *)
Theorem groupedFiles_outcome (files : list FileInfo) :
  (Forall (λ file, originalFilename file ∉ Object_prototype) files
   ∧ ∃ groups,
       groupedFiles files = Normal groups
       ∧ ∀ name, groups !! name
                 = match named name files with
                   | [] => None
                   | group => Some group
                   end)
  ∨ (Exists (λ file, originalFilename file ∈ Object_prototype) files
     ∧ groupedFiles files = Throw "TypeError").
Proof.
  destruct (decide (Exists (λ file, originalFilename file ∈ Object_prototype) files))
    as [Hex | Hall].
  - right. split; [exact Hex |]. apply reduce_groups_inherited; [| exact Hex].
    intros name [group Hgroup]. by rewrite lookup_empty in Hgroup.
  - left. apply not_Exists_Forall in Hall; [| intros file; apply _].
    split; [exact Hall |].
    destruct (reduce_groups_plain files ∅ Hall) as (groups & Hrun & Hgroups).
    exists groups. split; [exact Hrun |]. intros name.
    by rewrite Hgroups, lookup_empty.
Qed.

End Groups.

(** ** [components/FileUpload.tsx]: the selection *)

Section Selection.
Context {A : Type}.

Lemma filter_index_from (index k : nat) (l : list A) :
  filter_index (λ i, negb (i =? index)%nat) k l
  = if decide (index < k)%nat then l
    else (take (index - k) l ++ drop (S (index - k)) l)%list.
Proof.
  revert k. induction l as [|x l IH]; intros k.
  - simpl. case_decide; [done |]. by rewrite take_nil.
  - simpl. rewrite IH. destruct (Nat.eqb_spec k index) as [-> | Hne]; simpl.
    + rewrite decide_True by lia. rewrite decide_False by lia.
      by rewrite Nat.sub_diag.
    + destruct (decide (index < k)%nat).
      * by rewrite decide_True by lia.
      * rewrite decide_False by lia.
        replace (index - k)%nat with (S (index - S k)) by lia. reflexivity.
Qed.

(** X17.  [removeFile] takes the one file at the index out of the
    selection and keeps the others in their order; an index past the end
    leaves the selection as it is. *)
Theorem removeFile_takes_one_out (index : nat) (prev : list A) :
  removeFile index prev = (take index prev ++ drop (S index) prev)%list
  ∧ length (removeFile index prev)
    = (if decide (index < length prev)%nat
       then Nat.pred (length prev) else length prev).
Proof.
  assert (Heq : removeFile index prev
                = (take index prev ++ drop (S index) prev)%list).
  { unfold removeFile. rewrite filter_index_from, decide_False by lia.
    by rewrite Nat.sub_0_r. }
  split; [exact Heq |]. rewrite Heq, length_app, length_take, length_drop.
  case_decide; lia.
Qed.

End Selection.
End ViewFacts.

(** * The identifiers of the sample platform *)

Module OracleFacts.
Import Codec.
Local Open Scope nat_scope.

Lemma hex_lower_is_hex (n : nat) : n < 16 → is_hex_lower (hex_lower n) = true.
Proof. intros Hn. do 16 (destruct n as [|n]; [reflexivity |]). lia. Qed.

Lemma hex_digits_chars (width n : nat) (rest : string) :
  ∃ digits,
    list_ascii_of_string (hex_digits width n rest)
    = (digits ++ list_ascii_of_string rest)%list
    ∧ length digits = width
    ∧ Forall (λ c, is_hex_lower c = true) digits.
Proof.
  revert n rest. induction width as [|w IH]; intros n rest.
  - exists []. by repeat split.
  - destruct (IH (n / 16) (String (hex_lower (n mod 16)) rest))
      as (digits & Hchars & Hlen & Hhex).
    exists (digits ++ [hex_lower (n mod 16)])%list. split; [| split].
    + cbn [hex_digits]. rewrite Hchars. by rewrite <- app_assoc.
    + rewrite length_app. simpl. lia.
    + apply Forall_app. split; [exact Hhex |]. constructor; [| constructor].
      apply hex_lower_is_hex. apply Nat.mod_upper_bound. lia.
Qed.

Lemma uuid_chars_last_group (pos : nat) (digits : list ascii) :
  24 ≤ pos → pos + length digits = 36 →
  Forall (λ c, is_hex_lower c = true) digits →
  uuid_chars pos digits = true.
Proof.
  intros Hpos Hlen Hhex. revert pos Hpos Hlen.
  induction Hhex as [|c digits Hc _ IH]; intros pos Hpos Hlen; simpl in *.
  - apply Nat.eqb_eq. lia.
  - replace (hyphen_position pos) with false.
    + rewrite Hc. apply IH; lia.
    + symmetry. unfold hyphen_position.
      repeat (apply orb_false_iff; split); apply Nat.eqb_neq; lia.
Qed.

(** Every identifier of the sample platform is a UUID. *)
Lemma uuid_of_nat_is_uuid (n : nat) : is_uuid (uuid_of_nat n) = true.
Proof.
  unfold is_uuid, uuid_of_nat.
  destruct (hex_digits_chars 12 n EmptyString) as (digits & Hchars & Hlen & Hhex).
  rewrite PathFacts.list_ascii_of_string_app, Hchars, app_nil_r.
  cbn. apply uuid_chars_last_group; [lia | lia | exact Hhex].
Qed.

End OracleFacts.

(** * Further runs of the sample platform *)

Module MoreRuns.
Import Codec Sample Client.

(** multer keeps no file of a part named [..]: the upload answers 400 and
    nothing is drawn, stored or registered. *)
Lemma upload_of_a_dropped_name :
  handle (Upload (Some [dotdot])) fresh_server
  = (Normal (json 400 (ErrorBody "No files uploaded")), fresh_server).
Proof. vm_compute. reflexivity. Qed.

(** The name and the type busboy reads for the part [resume]. *)
Lemma name_and_type_as_read :
  multer_part resume
  = mkPart (String (ascii_of_nat 114)
              (String (ascii_of_nat 195) (String (ascii_of_nat 131)
                 (String (ascii_of_nat 194) (String (ascii_of_nat 169)
                    "sum.txt")))))
           "text/plain" "cv".
Proof. vm_compute. reflexivity. Qed.

(** A record whose [mimeType] holds a line feed is not served: 500. *)
Lemma download_of_an_invalid_type :
  handle (Download report_id)
    (set_fileMap
       {[ report_id := mkFileInfo report_id "report.pdf" (report_id +:+ ".pdf") 15
                         (String (ascii_of_nat 10) "x") "2024-01-01T00:00:00.000Z" ]}
       serving)
  = (Normal (json 500 (ErrorBody "File download failed")),
     set_console ["Download error:"]
       (set_fileMap
          {[ report_id := mkFileInfo report_id "report.pdf" (report_id +:+ ".pdf") 15
                            (String (ascii_of_nat 10) "x") "2024-01-01T00:00:00.000Z" ]}
          serving)).
Proof. vm_compute. reflexivity. Qed.

(** X1 for a sequence with an upload that is dropped, one that is kept, a
    list, a download and two deletes. *)
Lemma every_request_is_answered_witness :
  length (serve [ Upload (Some [dotdot]); Upload (Some [report; dotdot]);
                  ListFiles; Download report_id; Delete report_id;
                  Delete "constructor" ] fresh_server).1 = 6.
Proof.
  apply (every_request_is_answered
           [ Upload (Some [dotdot]); Upload (Some [report; dotdot]);
             ListFiles; Download report_id; Delete report_id;
             Delete "constructor" ] fresh_server).
  repeat constructor; discriminate.
Defined.

(** X2 on the server that holds the report: after an upload and a
    deletion the snapshot is the text of the registry. *)
Lemma snapshot_follows_registry_witness :
  snapshot_writable serving = true
  ∧ in_step serving
  ∧ in_step (serve [Upload (Some [notes]); Delete report_id] serving).2.
Proof.
  split; [reflexivity |].
  assert (Hstep : snapshot serving = Some (JSON_stringify (fileMap serving)))
    by (vm_compute; reflexivity).
  split; [exact Hstep |].
  destruct (snapshot_follows_registry
              [Upload (Some [notes]); Delete report_id] ListFiles serving eq_refl)
    as [Hrun _].
  exact (Hrun Hstep).
Defined.

(** X3 for the deletion of the report. *)
Lemma only_upload_adds_witness :
  fileMap (handle (Delete report_id) serving).2 ⊆ fileMap serving
  ∧ uploads (handle (Delete report_id) serving).2 ⊆ uploads serving.
Proof.
  destruct (only_upload_adds (Delete report_id) serving) as (Hmap & Hblobs & _).
  - intros parts. discriminate.
  - by split.
Defined.

(** X4 for three parts on the fresh server, of which multer keeps two. *)
Lemma uploaded_files_download_witness :
  ∃ files s',
    handle (Upload (Some [report; dotdot; resume])) fresh_server
    = (Normal (json 200 (UploadBody "Files uploaded successfully" files)), s')
    ∧ length files = 2.
Proof.
  destruct (uploaded_files_download fresh_server [report; dotdot; resume])
    as (files & s' & Hrun & Hdown).
  - vm_compute. discriminate.
  - vm_compute. repeat constructor.
  - apply (bool_decide_unpack _). vm_compute. exact I.
  - exists files, s'. split; [exact Hrun |].
    rewrite <- (Forall2_length _ _ _ Hdown). vm_compute. reflexivity.
Defined.

(** X5 for two files on the fresh server. *)
Lemma uploaded_files_listed_witness :
  ∃ files s' listed,
    handle (Upload (Some [report; notes])) fresh_server
    = (Normal (json 200 (UploadBody "Files uploaded successfully" files)), s')
    ∧ handle ListFiles s'
      = (Normal (mkResponse 200 [("Content-Type", HString "application/json")]
                   (FilesBody listed)), s')
    ∧ listed ≡ₚ files ++ Object_values (fileMap fresh_server).
Proof.
  apply (uploaded_files_listed fresh_server [report; notes]).
  - discriminate.
  - vm_compute. repeat constructor.
  - apply (bool_decide_unpack _). vm_compute. exact I.
  - intros u _. apply lookup_empty.
Defined.

(** X6 for two files on the fresh server. *)
Lemma deletes_undo_upload_witness :
  ∃ files s',
    handle (Upload (Some [report; notes])) fresh_server
    = (Normal (json 200 (UploadBody "Files uploaded successfully" files)), s')
    ∧ fileMap (serve (Delete <$> (uid <$> files)) s').2 = ∅
    ∧ uploads (serve (Delete <$> (uid <$> files)) s').2 = ∅.
Proof.
  destruct (deletes_undo_upload fresh_server [report; notes])
    as (files & s' & Hrun & _ & Hmap & Hblobs).
  - discriminate.
  - vm_compute. repeat constructor.
  - apply (bool_decide_unpack _). vm_compute. exact I.
  - intros u _. apply lookup_empty.
  - intros name _. apply lookup_empty.
  - exists files, s'. split; [exact Hrun |]. by split.
Defined.

(** X7 on a server that holds the report and draws its identifier
    again. *)
Lemma upload_on_taken_id_witness :
  ∃ r s',
    handle (Upload (Some [notes])) (set_uuid_calls 0 serving)
    = (Normal (json 200 (UploadBody "Files uploaded successfully" [r])), s')
    ∧ uid r = report_id
    ∧ originalFilename r = "notes.tar.gz"
    ∧ base.size (fileMap s') = base.size (fileMap serving).
Proof.
  destruct (upload_on_taken_id_replaces (set_uuid_calls 0 serving) notes report_record)
    as (r & s' & Hrun & Huid & Hname & _ & Hsize & _).
  - vm_compute. discriminate.
  - reflexivity.
  - reflexivity.
  - exists r, s'. by repeat split.
Defined.

(** X8 on a truncated snapshot that can be written. *)
Lemma second_start_witness :
  ∃ s2,
    startup (uploads (startup ∅ (Some "{") true).2)
      (snapshot (startup ∅ (Some "{") true).2)
      (snapshot_writable (startup ∅ (Some "{") true).2)
    = (Normal tt, s2)
    ∧ fileMap s2 = ∅
    ∧ console s2 = [].
Proof.
  destruct (second_start_is_quiet ∅ (Some "{") true (startup ∅ (Some "{") true).2)
    as (s2 & Hrun & Hmap & _ & Hlog).
  - reflexivity.
  - reflexivity.
  - exists s2. by repeat split.
Defined.

(** X9 for the notes on the fresh server. *)
Lemma stored_name_witness :
  ∃ name,
    storage_filename "notes.tar.gz" fresh_server
      = (Normal name, set_uuid_calls 1 fresh_server)
    ∧ Path.extname name = ".gz"
    ∧ Path.parse_name name = report_id.
Proof.
  destruct (stored_name_is_id_and_extension "notes.tar.gz" fresh_server)
    as (name & Hrun & Hext & Hid & _).
  - reflexivity.
  - exists name. by repeat split.
Defined.

(** X10 for the download of the report. *)
Lemma download_header_witness :
  ∃ text,
    headers (streamed report_record (part_content report)) !! 1%nat
      = Some ("Content-Disposition",
              HString ("attachment; filename=" +:+ dquote +:+ text +:+ dquote))
    ∧ Forall quotable (list_ascii_of_string text).
Proof.
  apply (download_header_is_well_quoted report_id serving serving);
    reflexivity.
Defined.

(** X11 for the notes, after an upload of two files and the deletion of
    the first. *)
Lemma registered_files_download_witness :
  ∃ bytes,
    handle (Download (uuid_of_nat 1))
      (serve [Upload (Some [report; notes]); Delete report_id] fresh_server).2
    = (Normal (streamed
                 (mkFileInfo (uuid_of_nat 1) "notes.tar.gz"
                    (uuid_of_nat 1 +:+ ".gz") 5 "application/gzip"
                    "2024-01-01T00:00:00.000Z") bytes),
       (serve [Upload (Some [report; notes]); Delete report_id] fresh_server).2).
Proof.
  destruct (registered_files_download_after_any_requests
              [Upload (Some [report; notes]); Delete report_id] fresh_server
              (uuid_of_nat 1)
              (mkFileInfo (uuid_of_nat 1) "notes.tar.gz"
                 (uuid_of_nat 1 +:+ ".gz") 5 "application/gzip"
                 "2024-01-01T00:00:00.000Z"))
    as (bytes & _ & Hrun).
  - exact OracleFacts.uuid_of_nat_is_uuid.
  - intros k r Hk. change (fileMap fresh_server) with (∅ : gmap string FileInfo) in Hk.
    rewrite lookup_empty in Hk. discriminate.
  - vm_compute. reflexivity.
  - by exists bytes.
Defined.

(** X12 for an identifier the registry holds, [report_id], on the server
    that holds the report. *)
Lemma deleteFile_witness :
  (deleteFile report_id serving).1 = Normal tt
  ∧ fileMap (deleteFile report_id serving).2 = ∅.
Proof.
  destruct (ClientFacts.deleteFile_outcome report_id serving) as [Hanswer Hmap].
  - reflexivity.
  - split; [exact Hanswer |]. rewrite Hmap. vm_compute. reflexivity.
Defined.


End MoreRuns.
